(** * Resume / job-description matching core: a shallow embedding

    The matching pipeline of the analyzer (backend/scorer.py,
    backend/feedback_generator.py, backend/semantic_analyzer.py,
    backend/keyword_extractor.py, backend/text_processor.py) as Rocq
    functions, followed by the properties established about them.

    Conventions of the embedding.
    - A Python [float] that carries a score or a weight is read as the
      rational it denotes ([Q]): the order of the numbers is kept, the
      rounding of the arithmetic, infinities and NaN are left out.  Where
      the rounding decides, the scorer is evaluated on the binary64
      numbers themselves ([ScorerBinary64]).  The cosine of two embedding
      vectors needs a square root and lives in [R].
    - A Python [str] is the [string] of its UTF-8 bytes.  [strip] and
      [split] know the whitespace characters of Unicode; [lower] lowers
      the ASCII letters only, so a statement that depends on the case of
      letters is made for ASCII text.
    - [set(...)] is a [gset string]; Python leaves the iteration order of a
      set unspecified, the model iterates in the order of [elements].
    - [raise] is an explicit error outcome; [print] is not modelled.
    - Third-party collaborators (the sentence encoder, the TF-IDF
      vectorizer, the tokenizer, the stop-word list, the lemmatizer) are
      arguments of the functions that call them. *)

From Stdlib Require Import QArith ZArith Ascii String Reals Psatz.
From Stdlib Require PrimFloat Uint63.
From stdpp Require Import gmap strings list sorting pretty.

Local Open Scope Q_scope.

(** ** Python helpers shared by the modules *)

(** [a < b] on floats. *)
Definition Qlt_bool (a b : Q) : bool := negb (Qle_bool b a).

(** [max(a, b)] and [min(a, b)]: the first argument wins unless the second
    is strictly larger (smaller). *)
Definition py_max (a b : Q) : Q := if Qlt_bool a b then b else a.
Definition py_min (a b : Q) : Q := if Qlt_bool b a then b else a.

(** [s.lower()] on ASCII text: the letters A to Z are lowered, every
    other byte is left as it is. *)
Definition lower_ascii (c : ascii) : ascii :=
  let n := N_of_ascii c in
  if ((65 <=? n) && (n <=? 90))%N then ascii_of_N (n + 32) else c.

Fixpoint lower (s : string) : string :=
  match s with
  | EmptyString => EmptyString
  | String c rest => String (lower_ascii c) (lower rest)
  end.

(** A value handed to a function that expects a [str]: a string, or an
    object of another type (an [int], [None]). *)
Inductive pyobj : Type :=
| PyStr (s : string)
| PyInt (n : Z)
| PyNone.

(** [isinstance(v, str)]. *)
Definition is_str (v : pyobj) : bool :=
  match v with PyStr _ => true | _ => false end.

(** The UTF-8 bytes of a code point. *)
Definition utf8 (code_point : N) : string :=
  let continuation (n : N) := ascii_of_N (128 + N.land n 63) in
  if (code_point <? 128)%N then String (ascii_of_N code_point) EmptyString
  else if (code_point <? 2048)%N then
    String (ascii_of_N (192 + N.shiftr code_point 6))
      (String (continuation code_point) EmptyString)
  else if (code_point <? 65536)%N then
    String (ascii_of_N (224 + N.shiftr code_point 12))
      (String (continuation (N.shiftr code_point 6))
         (String (continuation code_point) EmptyString))
  else
    String (ascii_of_N (240 + N.shiftr code_point 18))
      (String (continuation (N.shiftr code_point 12))
         (String (continuation (N.shiftr code_point 6))
            (String (continuation code_point) EmptyString))).

(** The code points [c.isspace()] accepts; [strip] and [split] treat
    exactly these as whitespace. *)
Definition whitespace_code_points : list N :=
  [0x9; 0xA; 0xB; 0xC; 0xD; 0x1C; 0x1D; 0x1E; 0x1F; 0x20; 0x85; 0xA0;
   0x1680; 0x2000; 0x2001; 0x2002; 0x2003; 0x2004; 0x2005; 0x2006; 0x2007;
   0x2008; 0x2009; 0x200A; 0x2028; 0x2029; 0x202F; 0x205F; 0x3000]%N.

Definition whitespace : list string := utf8 <$> whitespace_code_points.

(** [s] without its prefix [prefix], when it starts with it. *)
Fixpoint after (prefix s : string) : option string :=
  match prefix, s with
  | EmptyString, _ => Some s
  | String a prefix, String b s =>
      if Ascii.eqb a b then after prefix s else None
  | String _ _, EmptyString => None
  end.

(** What follows the whitespace character [s] starts with, when it starts
    with one. *)
Definition space_prefix (s : string) : option string :=
  head (omap (λ space, after space s) whitespace).

Definition starts_with_space (s : string) : bool :=
  match space_prefix s with Some _ => true | None => false end.

(** [not s] for a string. *)
Definition is_empty (s : string) : bool :=
  match s with EmptyString => true | String _ _ => false end.

(** "Empty or whitespace-only": every character of [s] is whitespace.
    A text is read one character at a time; [fuel] bounds the characters
    read and is the length of the text. *)
Fixpoint whitespace_only_within (fuel : nat) (s : string) : bool :=
  match s with
  | EmptyString => true
  | String _ _ =>
      match fuel, space_prefix s with
      | S fuel, Some rest => whitespace_only_within fuel rest
      | _, _ => false
      end
  end.

Definition whitespace_only (s : string) : bool :=
  whitespace_only_within (String.length s) s.

(** [s.lstrip()], [s.rstrip()] and [s.strip()]: the whitespace characters
    at the start, at the end, at both ends are removed. *)
Fixpoint lstrip_within (fuel : nat) (s : string) : string :=
  match fuel, space_prefix s with
  | S fuel, Some rest => lstrip_within fuel rest
  | _, _ => s
  end.

Definition lstrip (s : string) : string :=
  lstrip_within (String.length s) s.

Fixpoint rstrip (s : string) : string :=
  match s with
  | EmptyString => EmptyString
  | String c rest =>
      if whitespace_only (String c rest) then EmptyString
      else String c (rstrip rest)
  end.

Definition strip (s : string) : string := rstrip (lstrip s).

(** [s.split()]: the maximal runs without whitespace. [word] is the run
    being read. *)
Definition flush (word : string) : list string :=
  if is_empty word then [] else [word].

Fixpoint split_within (fuel : nat) (word text : string) : list string :=
  match text, fuel with
  | String c rest, S fuel =>
      match space_prefix text with
      | Some after_space =>
          flush word ++ split_within fuel EmptyString after_space
      | None => split_within fuel (word +:+ String c EmptyString) rest
      end
  | _, _ => flush word
  end.

Definition split_from (word text : string) : list string :=
  split_within (String.length text) word text.

Definition split (text : string) : list string := split_from EmptyString text.

(** What [split] yields: words, non-empty and without whitespace. No
    whitespace character starts anywhere in [word]; in [no_space_before],
    none does when [text] follows [word]. *)
Fixpoint no_space (word : string) : bool :=
  match word with
  | EmptyString => true
  | String c rest =>
      negb (starts_with_space (String c rest)) && no_space rest
  end.

Fixpoint no_space_before (text word : string) : bool :=
  match word with
  | EmptyString => true
  | String c rest =>
      negb (starts_with_space (String c rest +:+ text))
      && no_space_before text rest
  end.

Definition is_word (word : string) : Prop :=
  word ≠ EmptyString ∧ no_space word = true.

(** Every byte of [s] passes the test [p]. *)
Fixpoint all_chars (p : ascii → bool) (s : string) : bool :=
  match s with
  | EmptyString => true
  | String c rest => p c && all_chars p rest
  end.

(** A byte of the ASCII range, which is a character of its own. *)
Definition is_ascii (c : ascii) : bool := (N_of_ascii c <? 128)%N.

Definition not_ascii (c : ascii) : bool := negb (is_ascii c).

(** The bytes after the first are outside the ASCII range: so it is with
    every character of more than one byte. *)
Definition high_tail (character : string) : bool :=
  match character with
  | EmptyString => false
  | String _ tail => all_chars not_ascii tail
  end.

(** [t] is empty or starts with an ASCII character. *)
Definition low_start (t : string) : bool :=
  match t with
  | EmptyString => true
  | String c _ => is_ascii c
  end.

(** [sep.join(parts)]. *)
Definition join (sep : string) (parts : list string) : string :=
  String.concat sep parts.

(** [l[:n]]: a negative [n] counts from the end. *)
Definition py_slice_to {A : Type} (n : Z) (l : list A) : list A :=
  if (n <? 0)%Z then take (Z.to_nat (Z.of_nat (length l) + n)) l
  else take (Z.to_nat n) l.

(** [not l] for a list. *)
Definition is_nil {A : Type} (l : list A) : bool :=
  match l with [] => true | _ :: _ => false end.

(** The integer nearest to [q], ties to the even one: what [format] does
    with precision 0. *)
Definition round_half_even (q : Q) : Z :=
  let n := Qnum q in
  let d := Z.pos (Qden q) in
  let lo := (n / d)%Z in
  let twice_rem := (2 * (n mod d))%Z in
  match (twice_rem ?= d)%Z with
  | Lt => lo
  | Gt => (lo + 1)%Z
  | Eq => if Z.even lo then lo else (lo + 1)%Z
  end.

(** [f"{q:.0f}"]; a negative value that rounds to zero keeps its sign. *)
Definition format_0f (q : Q) : string :=
  let r := round_half_even q in
  if Qlt_bool q 0 && (r =? 0)%Z then "-0" else pretty r.

(** * backend/scorer.py *)
Module Scorer.

(** What a call does: it returns a float or raises [ValueError]. *)
Inductive outcome : Type :=
| Returns (v : Q)
| ValueError (msg : string).

Definition keyword_set (keywords : list string) : gset string :=
  list_to_set keywords.

Definition calculate_keyword_match_score
    (resume_keywords jd_keywords : list string) : Q :=
  match resume_keywords, jd_keywords with
  | [], _ | _, [] => 0
  | _, _ =>
      let set_resume := keyword_set resume_keywords in
      let set_jd := keyword_set jd_keywords in
      let intersection := size (set_resume ∩ set_jd) in
      let union := size (set_resume ∪ set_jd) in
      if (union =? 0)%nat then 0
      else inject_Z (Z.of_nat intersection) / inject_Z (Z.of_nat union)
  end.

Definition default_keyword_weight : Q := 4 # 10.
Definition default_semantic_weight : Q := 6 # 10.

Definition weights_in_range (keyword_weight semantic_weight : Q) : bool :=
  Qle_bool 0 keyword_weight && Qle_bool keyword_weight 1
  && Qle_bool 0 semantic_weight && Qle_bool semantic_weight 1.

(** The tail of [calculate_overall_score], once the weights are settled. *)
Definition combine (resume_keywords jd_keywords : list string)
    (semantic_similarity_score keyword_weight semantic_weight : Q) : Q :=
  let keyword_match_score :=
    calculate_keyword_match_score resume_keywords jd_keywords in
  let clamped_semantic_score :=
    py_max 0 (py_min 1 semantic_similarity_score) in
  let combined_score_0_to_1 :=
    keyword_match_score * keyword_weight
    + clamped_semantic_score * semantic_weight in
  combined_score_0_to_1 * 100.

Definition calculate_overall_score (resume_keywords jd_keywords : list string)
    (semantic_similarity_score keyword_weight semantic_weight : Q) : outcome :=
  if negb (weights_in_range keyword_weight semantic_weight) then
    ValueError "Weights must be between 0 and 1."
  else if negb (Qlt_bool 0 (keyword_weight + semantic_weight)) then
    Returns 0
  else
    let total_weight := keyword_weight + semantic_weight in
    if negb (Qeq_bool total_weight 1) then
      if Qeq_bool total_weight 0 then Returns 0
      else
        Returns (combine resume_keywords jd_keywords semantic_similarity_score
                   (keyword_weight / total_weight)
                   (semantic_weight / total_weight))
    else
      Returns (combine resume_keywords jd_keywords semantic_similarity_score
                 keyword_weight semantic_weight).

(** The value of [s] brought into [0, 1], as the specification words the
    clamping; compared with the [max]/[min] of the code below. *)
Definition clamp01 (s : Q) : Q :=
  if Qlt_bool s 0 then 0 else if Qlt_bool 1 s then 1 else s.

(** The call reports a failure to its caller. *)
Definition reports_failure (o : outcome) : Prop :=
  ∃ msg, o = ValueError msg.

(** A weight outside [0, 1], or weights that sum to zero. *)
Definition invalid_configuration (keyword_weight semantic_weight : Q) : Prop :=
  ¬ (0 <= keyword_weight <= 1 ∧ 0 <= semantic_weight <= 1)
  ∨ keyword_weight + semantic_weight == 0.

(** Two outcomes agree: the same error, or floats of the same value. *)
Definition outcome_eq (a b : outcome) : Prop :=
  match a, b with
  | Returns x, Returns y => x == y
  | ValueError m, ValueError n => m = n
  | _, _ => False
  end.

End Scorer.

(** * backend/scorer.py on binary64 numbers

    [Scorer] reads a Python [float] as the rational it denotes: that keeps
    the order of the numbers and leaves out the rounding of the
    arithmetic.  Here the same two functions compute on the binary64
    numbers of IEEE 754, as Python does: every [+], [*] and [/] rounds to
    the nearest number, ties to even. *)
Module ScorerBinary64.

Import PrimFloat.
#[local] Set Warnings "-inexact-float".
Local Open Scope float_scope.

Inductive outcome : Type :=
| Returns (v : float)
| ValueError (msg : string).

(** A count as a float; [a / b] on two counts is the quotient of these. *)
Definition of_count (n : nat) : float :=
  PrimFloat.of_uint63 (Uint63.of_Z (Z.of_nat n)).

(** [max(a, b)] and [min(a, b)]: the first argument wins unless the second
    is strictly larger (smaller). *)
Definition py_max (a b : float) : float := if a <? b then b else a.
Definition py_min (a b : float) : float := if b <? a then b else a.

Definition calculate_keyword_match_score
    (resume_keywords jd_keywords : list string) : float :=
  match resume_keywords, jd_keywords with
  | [], _ | _, [] => 0
  | _, _ =>
      let set_resume := Scorer.keyword_set resume_keywords in
      let set_jd := Scorer.keyword_set jd_keywords in
      let intersection := size (set_resume ∩ set_jd) in
      let union := size (set_resume ∪ set_jd) in
      if (union =? 0)%nat then 0
      else of_count intersection / of_count union
  end.

Definition weights_in_range (keyword_weight semantic_weight : float) : bool :=
  (0 <=? keyword_weight) && (keyword_weight <=? 1)
  && (0 <=? semantic_weight) && (semantic_weight <=? 1).

Definition combine (resume_keywords jd_keywords : list string)
    (semantic_similarity_score keyword_weight semantic_weight : float)
    : float :=
  let keyword_match_score :=
    calculate_keyword_match_score resume_keywords jd_keywords in
  let clamped_semantic_score :=
    py_max 0 (py_min 1 semantic_similarity_score) in
  let combined_score_0_to_1 :=
    keyword_match_score * keyword_weight
    + clamped_semantic_score * semantic_weight in
  combined_score_0_to_1 * 100.

Definition calculate_overall_score (resume_keywords jd_keywords : list string)
    (semantic_similarity_score keyword_weight semantic_weight : float)
    : outcome :=
  if negb (weights_in_range keyword_weight semantic_weight) then
    ValueError "Weights must be between 0 and 1."
  else if negb (0 <? keyword_weight + semantic_weight) then
    Returns 0
  else
    let total_weight := keyword_weight + semantic_weight in
    if negb (total_weight =? 1) then
      if total_weight =? 0 then Returns 0
      else
        Returns (combine resume_keywords jd_keywords semantic_similarity_score
                   (keyword_weight / total_weight)
                   (semantic_weight / total_weight))
    else
      Returns (combine resume_keywords jd_keywords semantic_similarity_score
                 keyword_weight semantic_weight).

End ScorerBinary64.


(** * backend/feedback_generator.py *)
Module FeedbackGenerator.

(** The feedback dictionary: category name to its messages. *)
Abbreviation report := (gmap string (list string)).

(** [feedback[key].append(msg)]; every key appended to is in the
    dictionary from its creation to the final [pop]s. *)
Definition append (key msg : string) (feedback : report) : report :=
  alter (λ msgs, msgs ++ [msg]) key feedback.

(** [feedback[key]]; on the returned report, where an empty category has
    been popped, an absent key reads as no message. *)
Definition item (key : string) (feedback : report) : list string :=
  default [] (feedback !! key).

(** [if not feedback[key]: feedback.pop(key)]. *)
Definition pop_if_empty (key : string) (feedback : report) : report :=
  if is_nil (item key feedback) then delete key feedback else feedback.

Definition msg_missing (missing_keywords : list string)
    (top_n_missing_keywords : Z) : string :=
  "Consider incorporating relevant keywords from the job description that are currently less prominent in your resume. For example: "
  +:+ join ", " (py_slice_to top_n_missing_keywords missing_keywords) +:+ ".".

Definition msg_more_missing (missing_keywords : list string)
    (top_n_missing_keywords : Z) : string :=
  "There are "
  +:+ pretty (Z.of_nat (length missing_keywords) - top_n_missing_keywords)%Z
  +:+ " more keywords from the job description worth reviewing.".

Definition msg_excellent (overall_score : Q) : string :=
  "Excellent match! Your resume aligns very well with the job description (Overall Score: "
  +:+ format_0f overall_score +:+ "/100).".

Definition msg_good_potential (overall_score : Q) : string :=
  "Good potential! Your resume shows a reasonable alignment with the job description (Overall Score: "
  +:+ format_0f overall_score +:+ "/100).".

Definition msg_needs_improvement (overall_score : Q) : string :=
  "Needs improvement. Your resume could be better aligned with this specific job description (Overall Score: "
  +:+ format_0f overall_score +:+ "/100).".

Definition msg_strong_alignment : string :=
  "Your resume shows strong semantic alignment with the core responsibilities and skills outlined in the job description.".

Definition msg_moderate_alignment : string :=
  "Good semantic alignment with the job description.".

Definition msg_aligned : string :=
  "Your resume's content is generally well-aligned with the job description's key aspects.".

Definition msg_tailor_terminology : string :=
  "While there's some overlap, consider tailoring your language to better reflect the specific terminology and focus areas of the job description to improve semantic relevance.".

Definition msg_low_semantic : string :=
  "Focus on rephrasing your experience and skills to more closely match the language and requirements of the job description. The semantic similarity is currently low.".

Definition msg_highlight_skills : string :=
  "Review the job description carefully and ensure your resume clearly highlights the most relevant skills and experiences.".

Definition msg_common (common_keywords : list string)
    (top_n_missing_keywords : Z) : string :=
  "Your resume effectively highlights skills like: "
  +:+ join ", " (py_slice_to top_n_missing_keywords common_keywords)
  +:+ ", which are also mentioned in the job description.".

Definition msg_coverage : string :=
  "Great keyword coverage! Your resume appears to include many of the key terms from the job description.".

Definition msg_generic_strength : string :=
  "Your resume shows a good overall match. Ensure specific examples of your achievements are clearly presented.".

Definition msg_review_jd : string :=
  "Review the job description for any specific skills or qualifications you possess but haven't explicitly mentioned or emphasized in your resume.".

Definition initial_feedback : report :=
  <["overall_summary" := []]>
    (<["missing_keywords_suggestions" := []]>
       (<["strengths" := []]>
          (<["areas_for_improvement" := []]> ∅))).

Definition lowered_set (keywords : list string) : gset string :=
  list_to_set (lower <$> keywords).

(** [list(set_jd_keywords - set_resume_keywords)]. *)
Definition missing_keywords_of (resume_keywords jd_keywords : list string)
    : list string :=
  elements (lowered_set jd_keywords ∖ lowered_set resume_keywords).

(** [list(set_resume_keywords.intersection(set_jd_keywords))]. *)
Definition common_keywords_of (resume_keywords jd_keywords : list string)
    : list string :=
  elements (lowered_set resume_keywords ∩ lowered_set jd_keywords).

(** # 1. Identify missing keywords *)
Definition suggest_missing (missing_keywords : list string)
    (top_n_missing_keywords : Z) (feedback : report) : report :=
  if negb (is_nil missing_keywords) then
    let feedback :=
      append "missing_keywords_suggestions"
        (msg_missing missing_keywords top_n_missing_keywords) feedback in
    if (top_n_missing_keywords <? Z.of_nat (length missing_keywords))%Z then
      append "missing_keywords_suggestions"
        (msg_more_missing missing_keywords top_n_missing_keywords) feedback
    else feedback
  else feedback.

(** # 2. Generate overall summary based on scores *)
Definition summarize (semantic_similarity_score overall_score : Q)
    (feedback : report) : report :=
  if Qle_bool 75 overall_score then
    let feedback :=
      append "overall_summary" (msg_excellent overall_score) feedback in
    if Qle_bool (75 # 100) semantic_similarity_score then
      append "strengths" msg_strong_alignment feedback
    else if Qle_bool (60 # 100) semantic_similarity_score then
      append "strengths" msg_moderate_alignment feedback
    else feedback
  else if Qle_bool 50 overall_score then
    let feedback :=
      append "overall_summary" (msg_good_potential overall_score) feedback in
    if Qle_bool (60 # 100) semantic_similarity_score then
      append "strengths" msg_aligned feedback
    else append "areas_for_improvement" msg_tailor_terminology feedback
  else
    let feedback :=
      append "overall_summary" (msg_needs_improvement overall_score)
        feedback in
    if Qlt_bool semantic_similarity_score (5 # 10) then
      append "areas_for_improvement" msg_low_semantic feedback
    else append "areas_for_improvement" msg_highlight_skills feedback.

(** # 3. Specific suggestions based on keywords and semantic score *)
Definition suggest_specific (missing_keywords common_keywords : list string)
    (overall_score : Q) (top_n_missing_keywords : Z) (feedback : report)
    : report :=
  let feedback :=
    if negb (is_nil common_keywords) then
      append "strengths" (msg_common common_keywords top_n_missing_keywords)
        feedback
    else feedback in
  let feedback :=
    if is_nil missing_keywords && Qle_bool 70 overall_score then
      append "strengths" msg_coverage feedback
    else feedback in
  let feedback :=
    if is_nil (item "strengths" feedback) && Qle_bool 60 overall_score then
      append "strengths" msg_generic_strength feedback
    else feedback in
  if is_nil (item "missing_keywords_suggestions" feedback)
     && Qlt_bool overall_score 70 then
    append "areas_for_improvement" msg_review_jd feedback
  else feedback.

(** # Consolidate feedback if some lists are empty *)
Definition consolidate (feedback : report) : report :=
  pop_if_empty "missing_keywords_suggestions"
    (pop_if_empty "areas_for_improvement"
       (pop_if_empty "strengths" feedback)).

Definition default_top_n_missing_keywords : Z := 5.

Definition generate_feedback (resume_keywords jd_keywords : list string)
    (semantic_similarity_score overall_score : Q)
    (top_n_missing_keywords : Z) : report :=
  let missing_keywords := missing_keywords_of resume_keywords jd_keywords in
  let common_keywords := common_keywords_of resume_keywords jd_keywords in
  consolidate
    (suggest_specific missing_keywords common_keywords overall_score
       top_n_missing_keywords
       (summarize semantic_similarity_score overall_score
          (suggest_missing missing_keywords top_n_missing_keywords
             initial_feedback))).

(** ** The dictionary category by category

    What the steps above leave under each key, written as one list per
    category; [generate_feedback_categories] below proves that the code
    builds exactly these. *)

Definition categories
    (summary suggestions strengths improvements : list string) : report :=
  <["overall_summary" := summary]>
    (<["missing_keywords_suggestions" := suggestions]>
       (<["strengths" := strengths]>
          (<["areas_for_improvement" := improvements]> ∅))).

Definition band_summary (overall_score : Q) : string :=
  if Qle_bool 75 overall_score then msg_excellent overall_score
  else if Qle_bool 50 overall_score then msg_good_potential overall_score
  else msg_needs_improvement overall_score.

Definition band_strengths (semantic_similarity_score overall_score : Q)
    : list string :=
  if Qle_bool 75 overall_score then
    if Qle_bool (75 # 100) semantic_similarity_score then
      [msg_strong_alignment]
    else if Qle_bool (60 # 100) semantic_similarity_score then
      [msg_moderate_alignment]
    else []
  else if Qle_bool 50 overall_score then
    if Qle_bool (60 # 100) semantic_similarity_score then [msg_aligned]
    else []
  else [].

Definition band_improvements (semantic_similarity_score overall_score : Q)
    : list string :=
  if Qle_bool 75 overall_score then []
  else if Qle_bool 50 overall_score then
    if Qle_bool (60 # 100) semantic_similarity_score then []
    else [msg_tailor_terminology]
  else if Qlt_bool semantic_similarity_score (5 # 10) then [msg_low_semantic]
  else [msg_highlight_skills].

Definition suggestions_for (missing_keywords : list string)
    (top_n_missing_keywords : Z) : list string :=
  if is_nil missing_keywords then []
  else
    msg_missing missing_keywords top_n_missing_keywords
    :: (if (top_n_missing_keywords <? Z.of_nat (length missing_keywords))%Z
        then [msg_more_missing missing_keywords top_n_missing_keywords]
        else []).

Definition common_strength (common_keywords : list string)
    (top_n_missing_keywords : Z) : list string :=
  if is_nil common_keywords then []
  else [msg_common common_keywords top_n_missing_keywords].

Definition coverage_strength (missing_keywords : list string)
    (overall_score : Q) : list string :=
  if is_nil missing_keywords && Qle_bool 70 overall_score then [msg_coverage]
  else [].

(** [earlier]: the strengths present when the rule is reached. *)
Definition generic_strength (earlier : list string) (overall_score : Q)
    : list string :=
  if is_nil earlier && Qle_bool 60 overall_score then [msg_generic_strength]
  else [].

Definition review_note (missing_keywords : list string) (overall_score : Q)
    : list string :=
  if is_nil missing_keywords && Qlt_bool overall_score 70 then [msg_review_jd]
  else [].

(** The strengths in the order the code appends them: the band's, the
    shared keywords', the coverage one, and last the generic one. *)
Definition strengths_for (resume_keywords jd_keywords : list string)
    (semantic_similarity_score overall_score : Q)
    (top_n_missing_keywords : Z) : list string :=
  let earlier :=
    band_strengths semantic_similarity_score overall_score
    ++ common_strength (common_keywords_of resume_keywords jd_keywords)
         top_n_missing_keywords
    ++ coverage_strength (missing_keywords_of resume_keywords jd_keywords)
         overall_score in
  earlier ++ generic_strength earlier overall_score.

Definition improvements_for (resume_keywords jd_keywords : list string)
    (semantic_similarity_score overall_score : Q) : list string :=
  band_improvements semantic_similarity_score overall_score
  ++ review_note (missing_keywords_of resume_keywords jd_keywords)
       overall_score.

End FeedbackGenerator.

(** * backend/text_processor.py *)
Module TextProcessor.

(** [string.punctuation]. *)
Definition is_punctuation (c : ascii) : bool :=
  let n := N_of_ascii c in
  (((33 <=? n) && (n <=? 47)) || ((58 <=? n) && (n <=? 64))
   || ((91 <=? n) && (n <=? 96)) || ((123 <=? n) && (n <=? 126)))%N.

(** [text.translate(str.maketrans('', '', chars))]. *)
Fixpoint delete_chars (chars : ascii → bool) (text : string) : string :=
  match text with
  | EmptyString => EmptyString
  | String c rest =>
      if chars c then delete_chars chars rest
      else String c (delete_chars chars rest)
  end.

Definition lowercase_text (text : pyobj) : string :=
  match text with
  | PyStr s => lower s
  | _ => EmptyString
  end.

Definition remove_punctuation (text : pyobj) : string :=
  match text with
  | PyStr s => delete_chars is_punctuation s
  | _ => EmptyString
  end.

(** " ".join(text.split()) *)
Definition collapse_whitespace (text : string) : string :=
  join " " (split text).

Section Collaborators.

(** [nltk.tokenize.word_tokenize]. *)
Variable word_tokenize : string → list string.
(** [set(nltk.corpus.stopwords.words('english'))]. *)
Variable stop_words : gset string.
(** The spaCy pipeline, [None] when the model could not be loaded; applied
    to a text it yields the [lemma_] of every token. *)
Variable nlp : option (string → list string).

Definition remove_stopwords_nltk (text : pyobj) : string :=
  match text with
  | PyStr s =>
      let words := word_tokenize s in
      let filtered_words :=
        List.filter (λ word, negb (bool_decide (lower word ∈ stop_words)))
          words in
      join " " filtered_words
  | _ => EmptyString
  end.

Definition lemmatize_text_spacy (text : pyobj) : string :=
  match text with
  | PyStr s =>
      match nlp with
      | None => s
      | Some pipeline => join " " (pipeline s)
      end
  | _ => EmptyString
  end.

(** The [if nlp: ... else: ...] of [preprocess_text]. *)
Definition lemmatize_if_available (text : string) : string :=
  match nlp with
  | Some _ => lemmatize_text_spacy (PyStr text)
  | None => text
  end.

Definition preprocess_text (text : pyobj) : string :=
  match text with
  | PyStr _ =>
      let text := lowercase_text text in
      let text := remove_punctuation (PyStr text) in
      let text := remove_stopwords_nltk (PyStr text) in
      let text := lemmatize_if_available text in
      collapse_whitespace text
  | _ => EmptyString
  end.

End Collaborators.

(** Stand-ins for the collaborators, used to run the pipeline: a tokenizer
    that splits at blanks, an excerpt of the NLTK English stop-word list,
    and a lemmatizer that knows a few inflected forms. *)
Definition blank_tokenizer : string → list string := split.

Definition stop_words_excerpt : gset string :=
  list_to_set
    ["i"; "me"; "my"; "we"; "our"; "you"; "he"; "she"; "it"; "they";
     "this"; "that"; "is"; "are"; "was"; "be"; "been"; "have"; "has";
     "had"; "do"; "does"; "did"; "doing"; "a"; "an"; "the"; "and"; "but";
     "or"; "of"; "at"; "by"; "for"; "with"; "to"; "from"; "in"; "on";
     "some"; "not"; "can"; "will"].

Definition lemma_excerpt (token : string) : string :=
  if String.eqb token "done" then "do"
  else if String.eqb token "running" then "run"
  else if String.eqb token "tests" then "test"
  else if String.eqb token "skills" then "skill"
  else token.

Definition lemmatizer_excerpt : option (string → list string) :=
  Some (λ text, lemma_excerpt <$> split text).

End TextProcessor.

(** * backend/keyword_extractor.py *)
Module KeywordExtractor.

(** What [TfidfVectorizer.fit_transform] and [get_feature_names_out] give
    for a corpus: the vocabulary, and one row of scores per document. *)
Record tfidf : Type := {
  feature_names : list string;
  tfidf_matrix : list (list Q)
}.

(** [row[idx]]. *)
Definition score_at (row : list Q) (idx : nat) : Q := default 0 (row !! idx).

(** The order [argsort] sorts the columns by: their score in the row. *)
Definition score_le (row : list Q) (i j : nat) : Prop :=
  Qle_bool (score_at row i) (score_at row j).

Global Instance score_le_dec (row : list Q) : RelDecision (score_le row).
Proof. intros i j. unfold score_le. apply _. Defined.

(** [row.argsort()]: the columns of the row by ascending score.  numpy
    leaves the order of equal scores open; the model takes the order a
    merge sort gives. *)
Definition argsort (row : list Q) : list nat :=
  merge_sort (score_le row) (seq 0 (length row)).

(** The score of a term in a row, through its column in the vocabulary. *)
Fixpoint column_of (names : list string) (term : string) : option nat :=
  match names with
  | [] => None
  | name :: rest =>
      if String.eqb name term then Some 0%nat
      else S <$> column_of rest term
  end.

Definition term_score (names : list string) (row : list Q) (term : string)
    : Q :=
  match column_of names term with
  | Some idx => score_at row idx
  | None => 0
  end.

(** The columns kept for one document: the body of the inner loop. *)
Definition doc_keyword_columns (row : list Q) (top_n : Z) : list nat :=
  let sorted_indices := reverse (argsort row) in
  filter (λ idx, Qlt_bool 0 (score_at row idx))
    (py_slice_to top_n sorted_indices).

(** [feature_names[idx]] for each kept column; an index outside the
    vocabulary raises. *)
Definition doc_keywords (names : list string) (row : list Q) (top_n : Z)
    : option (list string) :=
  mapM (λ idx, names !! idx) (doc_keyword_columns row top_n).

(** The strings of a corpus, when every document is one. *)
Definition all_strings (corpus : list pyobj) : option (list string) :=
  mapM (λ doc, match doc with PyStr s => Some s | _ => None end) corpus.

Definition empty_result (corpus : list pyobj) : list (list string) :=
  (λ _, []) <$> corpus.

Section Vectorizer.

(** [TfidfVectorizer(stop_words='english')] fitted on a corpus; [None]
    when fitting raises (an empty vocabulary, for one). *)
Variable fit_transform : list string → option tfidf.

Definition extract_keywords_tfidf (processed_text_corpus : list pyobj)
    (top_n : Z) : list (list string) :=
  match all_strings processed_text_corpus with
  | Some docs =>
      if is_nil docs then empty_result processed_text_corpus
      else
        match
          fit_transform docs ≫= λ fit,
            mapM (λ row, doc_keywords (feature_names fit) row top_n)
              (tfidf_matrix fit)
        with
        | Some corpus_keywords => corpus_keywords
        | None => empty_result processed_text_corpus
        end
  | None => empty_result processed_text_corpus
  end.

End Vectorizer.

Definition default_top_n : Z := 10.

(** A document with six, three and two occurrences of its three terms,
    and what the vectorizer gives when fitted on it alone: the counts
    divided by their Euclidean norm 7, in the alphabetical order of the
    vocabulary. *)
Definition three_term_doc : string :=
  "django django django django django django api api api python python".

Definition three_term_fit : tfidf :=
  {| feature_names := ["api"; "django"; "python"];
     tfidf_matrix := [[3 # 7; 6 # 7; 2 # 7]] |}.

Definition three_term_vectorizer (docs : list string) : option tfidf :=
  if decide (docs = [three_term_doc]) then Some three_term_fit else None.

End KeywordExtractor.

(** * backend/semantic_analyzer.py *)
Module SemanticAnalyzer.

Local Open Scope R_scope.

(** An embedding. *)
Definition vector : Type := list R.

(** [sentence_model.encode(texts)]: one embedding per text; [None] when the
    call raises. *)
Definition encoder : Type := list string → option (list vector).

Definition dot (a b : vector) : R :=
  foldr Rplus 0 (zip_with Rmult a b).

(** [sklearn.preprocessing.normalize]: a row is divided by its Euclidean
    norm, a zero row is left as it is. *)
Definition normalize (a : vector) : vector :=
  let norm := sqrt (dot a a) in
  let norm := if Req_dec_T norm 0 then 1 else norm in
  (λ x, x / norm) <$> a.

(** [cosine_similarity(a.reshape(1, -1), b.reshape(1, -1))[0][0]]; rows
    without a feature or of different widths are refused with an error. *)
Definition cosine_similarity (a b : vector) : option R :=
  if is_nil a || is_nil b || negb (length a =? length b)%nat then None
  else Some (dot (normalize a) (normalize b)).

(** The body of the [try]: [None] stands for any exception. *)
Definition encode_and_compare (model : encoder) (text1 text2 : string)
    : option R :=
  embeddings ← model [text1; text2];
  first ← embeddings !! 0%nat;
  second ← embeddings !! 1%nat;
  cosine_similarity first second.

Definition calculate_semantic_similarity (sentence_model : option encoder)
    (text1 text2 : pyobj) : R :=
  match sentence_model with
  | None => 0
  | Some model =>
      match text1, text2 with
      | PyStr text1, PyStr text2 =>
          if is_empty (strip text1) || is_empty (strip text2) then
            if is_empty (strip text1) && is_empty (strip text2) then 1
            else 0
          else
            match encode_and_compare model text1 text2 with
            | Some similarity_score => similarity_score
            | None => 0
            end
      | _, _ => 0
      end
  end.

(** An encoder that sends every pair of texts to two opposite unit
    vectors, and one whose every call raises. *)
Definition opposite_encoder : encoder :=
  λ _, Some [[1; 0]; [-1; 0]].

Definition failing_encoder : encoder := λ _, None.

End SemanticAnalyzer.

(** * Further code of the repository *)

(** ** Characters of a string *)

(** An ASCII capital letter. *)
Definition is_upper (c : ascii) : bool :=
  let n := N_of_ascii c in ((65 <=? n) && (n <=? 90))%N.

Definition not_upper (c : ascii) : bool := negb (is_upper c).
Definition not_punctuation (c : ascii) : bool :=
  negb (TextProcessor.is_punctuation c).


(** * simplified_app.py *)
Module SimplifiedApp.

(** The preprocessing of the stand-alone application: lowercase, strip
    the punctuation, collapse the whitespace. *)
Definition preprocess_text (text : pyobj) : string :=
  match text with
  | PyStr s =>
      let text := lower s in
      let text :=
        TextProcessor.delete_chars TextProcessor.is_punctuation text in
      join " " (split text)
  | _ => EmptyString
  end.

(** A call returns a float or raises [ZeroDivisionError]. *)
Inductive outcome : Type :=
| Returns (v : Q)
| ZeroDivisionError.

(** The scores come in as numbers; nothing is checked or clamped, and the
    division by a total weight of zero raises. *)
Definition calculate_overall_score
    (keyword_match similarity keyword_weight similarity_weight : Q)
    : outcome :=
  let total_weight := keyword_weight + similarity_weight in
  if negb (Qeq_bool total_weight 1) then
    if Qeq_bool total_weight 0 then ZeroDivisionError
    else
      let keyword_weight := keyword_weight / total_weight in
      let similarity_weight := similarity_weight / total_weight in
      Returns
        ((keyword_match * keyword_weight + similarity * similarity_weight)
         * 100)
  else
    Returns
      ((keyword_match * keyword_weight + similarity * similarity_weight)
       * 100).

End SimplifiedApp.

(** * backend/semantic_analyzer.py: an encoder text by text *)

(** A sentence encoder embeds each text of the batch on its own: the
    encoder made of an embedding function. *)
Definition per_text_encoder (embed : string → SemanticAnalyzer.vector)
    : SemanticAnalyzer.encoder :=
  λ texts, Some (embed <$> texts).

(** * backend/main.py: the analysis endpoint *)
Module Main.

(** The fields of [ResumeAnalysisResponse]. *)
Record response : Type := {
  overall_score : Q;
  semantic_similarity_score : Q;
  keyword_match_score : Q;
  feedback : gmap string (list string);
  resume_keywords : list string;
  jd_keywords : list string
}.

(** The endpoint answers with a response or raises [HTTPException]. *)
Inductive outcome : Type :=
| Ok (r : response)
| HTTPException (status_code : Z).

Definition MAX_INPUT_LENGTH : Z := 200000.

(** [len(text)]: the characters of the text, one for every byte that
    does not continue a character of several bytes. *)
Definition is_continuation (c : ascii) : bool :=
  let n := N_of_ascii c in ((128 <=? n) && (n <? 192))%N.

Fixpoint characters (text : string) : nat :=
  match text with
  | EmptyString => 0
  | String c rest =>
      if is_continuation c then characters rest else S (characters rest)
  end.

Definition len (text : string) : Z := Z.of_nat (characters text).

(** [lists[0] if lists else []]. *)
Definition first_or_empty (lists : list (list string)) : list string :=
  match lists with
  | first :: _ => first
  | [] => []
  end.

Section Pipeline.

(** The collaborators of the text processor and of the keyword
    extractor, as in their modules. *)
Variable word_tokenize : string → list string.
Variable stop_words : gset string.
Variable nlp : option (string → list string).
Variable fit_transform : list string → option KeywordExtractor.tfidf.
(** [global_sentence_model is not None]. *)
Variable sentence_model_loaded : bool.
(** The float [calculate_semantic_similarity] returns for two texts. *)
Variable calculate_semantic_similarity : string → string → Q.

(** [extract_keywords_tfidf([processed] if processed else [""])], then
    the first list. *)
Definition keywords_of (processed_text : string) : list string :=
  first_or_empty
    (KeywordExtractor.extract_keywords_tfidf fit_transform
       (if negb (is_empty processed_text) then [PyStr processed_text]
        else [PyStr EmptyString])
       KeywordExtractor.default_top_n).

(** The body of [analyze_resume]; the only exception the modelled
    pipeline can raise inside the [try] is the scorer's [ValueError],
    answered with status 500. *)
Definition analyze_resume (resume_text job_description_text : string)
    : outcome :=
  if negb sentence_model_loaded then HTTPException 503
  else if (MAX_INPUT_LENGTH <? len resume_text)%Z
          || (MAX_INPUT_LENGTH <? len job_description_text)%Z then
    HTTPException 413
  else
    let processed_resume_text :=
      TextProcessor.preprocess_text word_tokenize stop_words nlp
        (PyStr resume_text) in
    let processed_jd_text :=
      TextProcessor.preprocess_text word_tokenize stop_words nlp
        (PyStr job_description_text) in
    let resume_keywords := keywords_of processed_resume_text in
    let jd_keywords := keywords_of processed_jd_text in
    let semantic_sim_score :=
      calculate_semantic_similarity resume_text job_description_text in
    match
      Scorer.calculate_overall_score resume_keywords jd_keywords
        semantic_sim_score Scorer.default_keyword_weight
        Scorer.default_semantic_weight
    with
    | Scorer.ValueError _ => HTTPException 500
    | Scorer.Returns overall_score =>
        let keyword_match_score_value :=
          Scorer.calculate_keyword_match_score resume_keywords jd_keywords in
        let feedback_data :=
          FeedbackGenerator.generate_feedback resume_keywords jd_keywords
            semantic_sim_score overall_score
            FeedbackGenerator.default_top_n_missing_keywords in
        Ok {| overall_score := overall_score;
              semantic_similarity_score := semantic_sim_score;
              keyword_match_score := keyword_match_score_value;
              feedback := feedback_data;
              resume_keywords := resume_keywords;
              jd_keywords := jd_keywords |}
    end.

End Pipeline.

End Main.

(** * simplified_app.py: the feedback *)
Module SimplifiedFeedback.

Import FeedbackGenerator.

Definition msg_missing (top_missing : list string) : string :=
  "Consider incorporating these keywords from the job description: "
  +:+ join ", " top_missing +:+ ".".

Definition msg_excellent (overall_score : Q) : string :=
  "Excellent match! Your resume aligns well with the job description (Score: "
  +:+ format_0f overall_score +:+ "/100).".

Definition msg_good_potential (overall_score : Q) : string :=
  "Good potential! Your resume shows reasonable alignment with the job description (Score: "
  +:+ format_0f overall_score +:+ "/100).".

Definition msg_needs_improvement (overall_score : Q) : string :=
  "Needs improvement. Your resume could be better aligned with this job description (Score: "
  +:+ format_0f overall_score +:+ "/100).".

Definition msg_common (common_keywords : list string) : string :=
  "Your resume effectively highlights skills like: "
  +:+ join ", " (py_slice_to 5 common_keywords)
  +:+ ", which are also mentioned in the job description.".

Definition msg_strong_alignment : string :=
  "Your resume shows strong semantic alignment with the job description.".

Definition msg_rephrase : string :=
  "Consider rephrasing your experience to better match the language used in the job description.".

Definition msg_several_missing : string :=
  "There are several keywords from the job description missing in your resume.".

(** [list(jd_set - resume_set)] and [list(resume_set.intersection(jd_set))],
    on the keywords as they are: no lowercasing here. *)
Definition missing_keywords_of (resume_keywords jd_keywords : list string)
    : list string :=
  elements
    ((list_to_set jd_keywords : gset string) ∖ list_to_set resume_keywords).

Definition common_keywords_of (resume_keywords jd_keywords : list string)
    : list string :=
  elements
    ((list_to_set resume_keywords : gset string) ∩ list_to_set jd_keywords).

Definition generate_feedback (resume_keywords jd_keywords : list string)
    (similarity overall_score : Q) : report :=
  let feedback := initial_feedback in
  let missing_keywords := missing_keywords_of resume_keywords jd_keywords in
  let feedback :=
    if negb (is_nil missing_keywords) then
      let top_missing := py_slice_to 5 missing_keywords in
      append "missing_keywords_suggestions" (msg_missing top_missing) feedback
    else feedback in
  let feedback :=
    if Qle_bool 75 overall_score then
      append "overall_summary" (msg_excellent overall_score) feedback
    else if Qle_bool 50 overall_score then
      append "overall_summary" (msg_good_potential overall_score) feedback
    else
      append "overall_summary" (msg_needs_improvement overall_score)
        feedback in
  let common_keywords := common_keywords_of resume_keywords jd_keywords in
  let feedback :=
    if negb (is_nil common_keywords) then
      append "strengths" (msg_common common_keywords) feedback
    else feedback in
  let feedback :=
    if Qle_bool (7 # 10) similarity then
      append "strengths" msg_strong_alignment feedback
    else feedback in
  let feedback :=
    if Qlt_bool similarity (5 # 10) then
      append "areas_for_improvement" msg_rephrase feedback
    else feedback in
  if (5 <? Z.of_nat (length missing_keywords))%Z then
    append "areas_for_improvement" msg_several_missing feedback
  else feedback.

End SimplifiedFeedback.

(** * Properties *)

(** ** Comparisons on floats *)

Lemma Qlt_bool_iff (a b : Q) : Qlt_bool a b = true ↔ a < b.
Proof.
  unfold Qlt_bool. rewrite negb_true_iff, <- not_true_iff_false, Qle_bool_iff.
  split; [apply Qnot_le_lt | apply Qlt_not_le].
Qed.

Lemma Qlt_bool_false (a b : Q) : Qlt_bool a b = false ↔ b <= a.
Proof.
  unfold Qlt_bool. rewrite negb_false_iff. apply Qle_bool_iff.
Qed.

Lemma Qle_bool_false (a b : Q) : Qle_bool a b = false ↔ b < a.
Proof.
  rewrite <- not_true_iff_false, Qle_bool_iff.
  split; [apply Qnot_le_lt | apply Qlt_not_le].
Qed.

(** Case analysis on a float comparison, leaving the fact in the context. *)
Ltac case_Qle a b :=
  let H := fresh "Hcmp" in
  destruct (Qle_bool a b) eqn:H;
  [apply Qle_bool_iff in H | apply Qle_bool_false in H].

Ltac case_Qlt a b :=
  let H := fresh "Hcmp" in
  destruct (Qlt_bool a b) eqn:H;
  [apply Qlt_bool_iff in H | apply Qlt_bool_false in H].

(** ** backend/scorer.py *)
Section ScorerFacts.

Import Scorer.

Lemma clamp_is_clamp01 (s : Q) : py_max 0 (py_min 1 s) == clamp01 s.
Proof.
  unfold py_max, py_min, clamp01.
  case_Qlt s 1; case_Qlt s 0; case_Qlt 1 s;
    repeat match goal with
           | |- context [Qlt_bool ?a ?b] => case_Qlt a b
           end; lra.
Qed.

Lemma clamp01_range (s : Q) : 0 <= clamp01 s <= 1.
Proof.
  unfold clamp01. case_Qlt s 0; [lra |]. case_Qlt 1 s; lra.
Qed.

Lemma clamp01_monotone (s1 s2 : Q) : s1 <= s2 → clamp01 s1 <= clamp01 s2.
Proof.
  intros Hle. unfold clamp01.
  case_Qlt s1 0; case_Qlt s2 0; try case_Qlt 1 s1; try case_Qlt 1 s2; lra.
Qed.

Lemma ratio_range (i u : nat) :
  (i ≤ u)%nat → (0 < u)%nat →
  0 <= inject_Z (Z.of_nat i) / inject_Z (Z.of_nat u) <= 1.
Proof.
  intros Hiu Hu.
  assert (0 < inject_Z (Z.of_nat u)) as Hpos.
  { replace 0 with (inject_Z 0) by reflexivity. rewrite <- Zlt_Qlt. lia. }
  split.
  - apply Qle_shift_div_l; [exact Hpos |].
    rewrite Qmult_0_l. replace 0 with (inject_Z 0) by reflexivity.
    rewrite <- Zle_Qle. lia.
  - apply Qle_shift_div_r; [exact Hpos |].
    rewrite Qmult_1_l, <- Zle_Qle. lia.
Qed.

Lemma keyword_match_score_range (resume_keywords jd_keywords : list string) :
  0 <= calculate_keyword_match_score resume_keywords jd_keywords <= 1.
Proof.
  unfold calculate_keyword_match_score.
  destruct resume_keywords as [|r rs]; [lra |].
  destruct jd_keywords as [|j js]; [lra |].
  set (A := keyword_set (r :: rs)). set (B := keyword_set (j :: js)).
  destruct (size (A ∪ B) =? 0)%nat eqn:Hsz; [lra |].
  apply Nat.eqb_neq in Hsz.
  apply ratio_range; [| lia].
  apply subseteq_size. intros x Hx.
  apply elem_of_intersection in Hx as [Hx _]. apply elem_of_union. by left.
Qed.

Lemma combine_range (resume_keywords jd_keywords : list string) (s a b : Q) :
  0 <= a → 0 <= b → a + b == 1 →
  0 <= combine resume_keywords jd_keywords s a b <= 100.
Proof.
  intros Ha Hb Hab. unfold combine.
  pose proof (keyword_match_score_range resume_keywords jd_keywords) as Hk.
  pose proof (clamp01_range s) as Hc.
  rewrite <- clamp_is_clamp01 in Hc.
  set (k := calculate_keyword_match_score resume_keywords jd_keywords) in *.
  set (c := py_max 0 (py_min 1 s)) in *.
  split; nra.
Qed.

Lemma combine_monotone (resume_keywords jd_keywords : list string)
    (s1 s2 a b : Q) :
  0 <= b → s1 <= s2 →
  combine resume_keywords jd_keywords s1 a b
  <= combine resume_keywords jd_keywords s2 a b.
Proof.
  intros Hb Hs. unfold combine.
  pose proof (clamp01_monotone s1 s2 Hs) as Hc.
  rewrite <- !clamp_is_clamp01 in Hc.
  set (c1 := py_max 0 (py_min 1 s1)) in *.
  set (c2 := py_max 0 (py_min 1 s2)) in *.
  nra.
Qed.

Lemma weights_in_range_iff (kw sw : Q) :
  weights_in_range kw sw = true ↔ 0 <= kw <= 1 ∧ 0 <= sw <= 1.
Proof.
  unfold weights_in_range. rewrite !andb_true_iff, !Qle_bool_iff. tauto.
Qed.

(** With weights in range and a positive sum the call returns the
    combination under the normalized weights. *)
Lemma overall_score_normalized (resume_keywords jd_keywords : list string)
    (s kw sw : Q) :
  0 <= kw <= 1 → 0 <= sw <= 1 → 0 < kw + sw →
  ∃ v, calculate_overall_score resume_keywords jd_keywords s kw sw = Returns v
       ∧ v == combine resume_keywords jd_keywords s
                (kw / (kw + sw)) (sw / (kw + sw)).
Proof.
  intros Hkw Hsw Hsum. unfold calculate_overall_score.
  rewrite (proj2 (weights_in_range_iff kw sw)) by tauto. simpl.
  rewrite (proj2 (Qlt_bool_iff 0 (kw + sw))) by exact Hsum. simpl.
  destruct (Qeq_bool (kw + sw) 1) eqn:Hone; simpl.
  - apply Qeq_bool_iff in Hone. eexists. split; [reflexivity |].
    unfold combine. rewrite Hone. field.
  - destruct (Qeq_bool (kw + sw) 0) eqn:Hzero.
    + apply Qeq_bool_iff in Hzero. lra.
    + eexists. split; reflexivity.
Qed.

(** With weights in range that sum to zero the call returns 0.0. *)
Lemma overall_score_zero_weights (resume_keywords jd_keywords : list string)
    (s kw sw : Q) :
  0 <= kw <= 1 → 0 <= sw <= 1 → kw + sw == 0 →
  calculate_overall_score resume_keywords jd_keywords s kw sw = Returns 0.
Proof.
  intros Hkw Hsw Hsum. unfold calculate_overall_score.
  rewrite (proj2 (weights_in_range_iff kw sw)) by tauto. simpl.
  rewrite (proj2 (Qlt_bool_false 0 (kw + sw))) by lra. reflexivity.
Qed.

(** The formula without rounding.  Over the rationals, with both weights
    in [0, 1] and a positive sum, [calculate_overall_score] returns
    (keyword match * kw/(kw+sw) + clamp01(semantic) * sw/(kw+sw)) * 100,
    a value between 0 and 100; and the weights (0.5, 0.8) give the same
    score as the weights (0.5/1.3, 0.8/1.3).  What the rounding of
    binary64 changes is in [ScorerBinary64Facts]. *)
Lemma overall_score_formula_without_rounding :
  (∀ (resume_keywords jd_keywords : list string) (s kw sw : Q),
     0 <= kw <= 1 → 0 <= sw <= 1 → 0 < kw + sw →
     ∃ v,
       calculate_overall_score resume_keywords jd_keywords s kw sw = Returns v
       ∧ v == (calculate_keyword_match_score resume_keywords jd_keywords
                 * (kw / (kw + sw))
               + clamp01 s * (sw / (kw + sw))) * 100
       ∧ 0 <= v <= 100)
  ∧ (∀ (resume_keywords jd_keywords : list string) (s : Q),
       outcome_eq
         (calculate_overall_score resume_keywords jd_keywords s
            (5 # 10) (8 # 10))
         (calculate_overall_score resume_keywords jd_keywords s
            ((5 # 10) / (13 # 10)) ((8 # 10) / (13 # 10)))).
Proof.
  split.
  - intros resume_keywords jd_keywords s kw sw Hkw Hsw Hsum.
    destruct (overall_score_normalized resume_keywords jd_keywords s kw sw)
      as (v & Hret & Hv); [assumption.. |].
    exists v. split; [exact Hret |].
    assert (kw / (kw + sw) + sw / (kw + sw) == 1) as Hone by (field; lra).
    assert (0 <= kw / (kw + sw)) as Ha.
    { apply Qle_shift_div_l; lra. }
    assert (0 <= sw / (kw + sw)) as Hb.
    { apply Qle_shift_div_l; lra. }
    split.
    + rewrite Hv. unfold combine.
      pose proof (clamp_is_clamp01 s) as Hc.
      set (c := py_max 0 (py_min 1 s)) in *.
      rewrite Hc. reflexivity.
    + rewrite Hv. by apply combine_range.
  - intros resume_keywords jd_keywords s.
    destruct (overall_score_normalized resume_keywords jd_keywords s
                (5 # 10) (8 # 10)) as (v1 & -> & Hv1); [lra.. |].
    destruct (overall_score_normalized resume_keywords jd_keywords s
                ((5 # 10) / (13 # 10)) ((8 # 10) / (13 # 10)))
      as (v2 & -> & Hv2); [vm_compute; split; discriminate.. | reflexivity |].
    simpl. rewrite Hv1, Hv2. unfold combine. field.
Qed.

Lemma overall_score_formula_without_rounding_example :
  ∃ v,
    calculate_overall_score ["python"; "django"; "api"]
      ["python"; "flask"; "api"] (8 # 10) (5 # 10) (8 # 10) = Returns v
    ∧ v == (calculate_keyword_match_score ["python"; "django"; "api"]
              ["python"; "flask"; "api"]
              * ((5 # 10) / ((5 # 10) + (8 # 10)))
            + clamp01 (8 # 10) * ((8 # 10) / ((5 # 10) + (8 # 10)))) * 100
    ∧ 0 <= v <= 100.
Proof.
  apply (proj1 overall_score_formula_without_rounding);
    vm_compute; try split; discriminate.
Qed.

(** C5, as the code has it.  A weight outside [0, 1] makes the call raise
    [ValueError]; weights in range that sum to zero make it return 0.0. *)
Theorem invalid_weights_outcome
    (resume_keywords jd_keywords : list string) (s kw sw : Q) :
  (¬ (0 <= kw <= 1 ∧ 0 <= sw <= 1) →
   calculate_overall_score resume_keywords jd_keywords s kw sw
   = ValueError "Weights must be between 0 and 1.")
  ∧ (0 <= kw <= 1 → 0 <= sw <= 1 → kw + sw == 0 →
     calculate_overall_score resume_keywords jd_keywords s kw sw = Returns 0).
Proof.
  split.
  - intros Hout. unfold calculate_overall_score.
    destruct (weights_in_range kw sw) eqn:Hin; [| reflexivity].
    apply weights_in_range_iff in Hin. contradiction.
  - apply overall_score_zero_weights.
Qed.

Lemma invalid_weights_outcome_witness :
  calculate_overall_score ["python"] ["python"] (8 # 10) (12 # 10) (6 # 10)
  = ValueError "Weights must be between 0 and 1."
  ∧ calculate_overall_score ["python"] ["python"] (8 # 10) 0 0 = Returns 0.
Proof.
  split.
  - apply (proj1 (invalid_weights_outcome ["python"] ["python"] (8 # 10)
                    (12 # 10) (6 # 10))).
    intros [[_ Hle] _]. vm_compute in Hle. apply Hle. reflexivity.
  - apply (proj2 (invalid_weights_outcome ["python"] ["python"] (8 # 10) 0 0));
      vm_compute; try split; discriminate.
Defined.

(** C5 as stated fails: zero weights are an invalid configuration, and
    the call returns 0.0 instead of reporting a failure. *)
Lemma zero_weights_return_zero :
  invalid_configuration 0 0
  ∧ calculate_overall_score ["python"] ["python"] (8 # 10) 0 0 = Returns 0
  ∧ ¬ reports_failure
        (calculate_overall_score ["python"] ["python"] (8 # 10) 0 0).
Proof.
  split; [right; reflexivity |].
  split; [reflexivity |].
  intros [msg Hmsg]. vm_compute in Hmsg. discriminate.
Qed.

(** C7. For fixed keyword lists and weights in [0, 1] the overall score
    is non-decreasing in the semantic similarity, whatever the two
    similarities are (values outside [0, 1] are clamped). *)
Theorem overall_score_monotone_in_semantic
    (resume_keywords jd_keywords : list string) (kw sw s1 s2 : Q) :
  0 <= kw <= 1 → 0 <= sw <= 1 → s1 <= s2 →
  ∃ v1 v2,
    calculate_overall_score resume_keywords jd_keywords s1 kw sw = Returns v1
    ∧ calculate_overall_score resume_keywords jd_keywords s2 kw sw
      = Returns v2
    ∧ v1 <= v2.
Proof.
  intros Hkw Hsw Hs.
  case_Qlt 0 (kw + sw).
  - destruct (overall_score_normalized resume_keywords jd_keywords s1 kw sw)
      as (v1 & Hr1 & Hv1); [assumption.. |].
    destruct (overall_score_normalized resume_keywords jd_keywords s2 kw sw)
      as (v2 & Hr2 & Hv2); [assumption.. |].
    exists v1, v2. split; [exact Hr1 |]. split; [exact Hr2 |].
    rewrite Hv1, Hv2. apply combine_monotone; [| exact Hs].
    apply Qle_shift_div_l; lra.
  - exists 0, 0.
    assert (kw + sw == 0) as Hzero by lra.
    rewrite !overall_score_zero_weights by assumption.
    repeat split; lra.
Qed.

Lemma overall_score_monotone_in_semantic_witness :
  ∃ v1 v2,
    calculate_overall_score ["python"; "django"; "api"]
      ["python"; "flask"; "api"] (-(3 # 10)) (4 # 10) (6 # 10) = Returns v1
    ∧ calculate_overall_score ["python"; "django"; "api"]
        ["python"; "flask"; "api"] (15 # 10) (4 # 10) (6 # 10) = Returns v2
    ∧ v1 <= v2.
Proof.
  apply overall_score_monotone_in_semantic;
    vm_compute; try split; discriminate.
Defined.

End ScorerFacts.

(** ** backend/scorer.py on binary64 numbers *)
Section ScorerBinary64Facts.

Import PrimFloat ScorerBinary64.
#[local] Set Warnings "-inexact-float".
Local Open Scope float_scope.

(** The instance of C2 holds on binary64 numbers too: 0.5 / 1.3 and
    0.8 / 1.3 sum to 1.0 exactly, so the second call normalizes nothing
    and computes with the weights the first call has after its
    normalization. *)
Lemma normalized_weights_instance
    (resume_keywords jd_keywords : list string) (s : float) :
  calculate_overall_score resume_keywords jd_keywords s 0.5 0.8
  = calculate_overall_score resume_keywords jd_keywords s (0.5 / 1.3)
      (0.8 / 1.3).
Proof. reflexivity. Qed.

(** C2 fails in the last digits.  The weights 0.03 and 0.29 are in
    [0, 1] and sum to more than 0 (to 0.31999999999999995); for identical
    keyword lists and a semantic score of 1.0 the normalized weights,
    0.09375000000000001 and 0.9062500000000001, sum to
    1.0000000000000002, and the call returns 100.00000000000003: an
    overall score above 100. *)
Theorem overall_score_above_100 :
  weights_in_range 0.03 0.29 = true
  ∧ (0 <? 0.03 + 0.29) = true
  ∧ calculate_overall_score ["python"] ["python"] 1 0.03 0.29
    = Returns 100.00000000000003
  ∧ (100 <? 100.00000000000003) = true.
Proof. repeat split; vm_compute; reflexivity. Qed.

End ScorerBinary64Facts.

(** ** backend/feedback_generator.py *)
Section FeedbackFacts.

Import FeedbackGenerator.

Lemma is_nil_true {A : Type} (l : list A) : is_nil l = true ↔ l = [].
Proof. destruct l; split; (reflexivity || discriminate). Qed.

Lemma is_nil_false {A : Type} (l : list A) : is_nil l = false ↔ l ≠ [].
Proof. destruct l; split; try reflexivity; try discriminate; congruence. Qed.

(** *** [pop] of an empty category *)

Lemma pop_if_empty_lookup (key k : string) (feedback : report)
    (msgs : list string) :
  pop_if_empty key feedback !! k = Some msgs →
  feedback !! k = Some msgs ∧ (k = key → msgs ≠ []).
Proof.
  unfold pop_if_empty. destruct (is_nil (item key feedback)) eqn:Hnil.
  - intros [Hne Hk]%lookup_delete_Some. split; [exact Hk | congruence].
  - intros Hk. split; [exact Hk |]. intros ->.
    unfold item in Hnil. rewrite Hk in Hnil. simpl in Hnil.
    by apply is_nil_false.
Qed.

Lemma pop_if_empty_lookup_ne (key k : string) (feedback : report) :
  k ≠ key → pop_if_empty key feedback !! k = feedback !! k.
Proof.
  intros Hne. unfold pop_if_empty.
  destruct (is_nil (item key feedback)); [| reflexivity].
  by apply lookup_delete_ne.
Qed.

Lemma pop_if_empty_item (key k : string) (feedback : report) :
  item k (pop_if_empty key feedback) = item k feedback.
Proof.
  unfold pop_if_empty. destruct (is_nil (item key feedback)) eqn:Hnil;
    [| reflexivity].
  unfold item at 1. destruct (decide (k = key)) as [-> | Hne].
  - rewrite lookup_delete_eq. simpl. symmetry. by apply is_nil_true.
  - by rewrite lookup_delete_ne.
Qed.

Lemma consolidate_item (k : string) (feedback : report) :
  item k (consolidate feedback) = item k feedback.
Proof. unfold consolidate. by rewrite !pop_if_empty_item. Qed.

Lemma consolidate_summary (feedback : report) :
  consolidate feedback !! "overall_summary" = feedback !! "overall_summary".
Proof. unfold consolidate. by rewrite !pop_if_empty_lookup_ne. Qed.

Lemma categories_lookup (s g t a : list string) (k : string)
    (msgs : list string) :
  categories s g t a !! k = Some msgs →
  k = "overall_summary" ∧ msgs = s
  ∨ k = "missing_keywords_suggestions" ∧ msgs = g
  ∨ k = "strengths" ∧ msgs = t
  ∨ k = "areas_for_improvement" ∧ msgs = a.
Proof.
  unfold categories. rewrite !lookup_insert_Some, lookup_empty.
  intros [[<- <-] | [_ [[<- <-] | [_ [[<- <-] | [_ [[<- <-] | [_ ?]]]]]]]];
    [tauto.. | discriminate].
Qed.

(** Every list left in a consolidated dictionary is non-empty, provided
    the summary is. *)
Lemma consolidate_nonempty (s g t a : list string) (k : string)
    (msgs : list string) :
  s ≠ [] → consolidate (categories s g t a) !! k = Some msgs → msgs ≠ [].
Proof.
  intros Hs. unfold consolidate.
  intros [[[Hk Ht]%pop_if_empty_lookup Ha]%pop_if_empty_lookup Hg]
    %pop_if_empty_lookup.
  apply categories_lookup in Hk as [[-> ->] | [[-> ->] | [[-> ->] | [-> ->]]]];
    auto.
Qed.

(** *** The closed form of the dictionary *)

Lemma append_summary (s g t a : list string) (msg : string) :
  append "overall_summary" msg (categories s g t a)
  = categories (s ++ [msg]) g t a.
Proof. reflexivity. Qed.

Lemma append_suggestions (s g t a : list string) (msg : string) :
  append "missing_keywords_suggestions" msg (categories s g t a)
  = categories s (g ++ [msg]) t a.
Proof. reflexivity. Qed.

Lemma append_strengths (s g t a : list string) (msg : string) :
  append "strengths" msg (categories s g t a) = categories s g (t ++ [msg]) a.
Proof. reflexivity. Qed.

Lemma append_improvements (s g t a : list string) (msg : string) :
  append "areas_for_improvement" msg (categories s g t a)
  = categories s g t (a ++ [msg]).
Proof. reflexivity. Qed.

Lemma item_strengths (s g t a : list string) :
  item "strengths" (categories s g t a) = t.
Proof. reflexivity. Qed.

Lemma item_suggestions (s g t a : list string) :
  item "missing_keywords_suggestions" (categories s g t a) = g.
Proof. reflexivity. Qed.

Lemma item_improvements (s g t a : list string) :
  item "areas_for_improvement" (categories s g t a) = a.
Proof. reflexivity. Qed.

Ltac by_categories :=
  rewrite ?append_summary, ?append_suggestions, ?append_strengths,
    ?append_improvements, ?app_nil_r, <- ?app_assoc;
  reflexivity.

Lemma suggest_missing_categories (missing : list string) (n : Z)
    (s t a : list string) :
  suggest_missing missing n (categories s [] t a)
  = categories s (suggestions_for missing n) t a.
Proof.
  unfold suggest_missing, suggestions_for.
  destruct missing as [|m ms]; simpl negb; simpl is_nil; cbv iota;
    [reflexivity |].
  rewrite append_suggestions.
  destruct (n <? Z.of_nat (length (m :: ms)))%Z; by_categories.
Qed.

Lemma summarize_categories (sem o : Q) (g : list string) :
  summarize sem o (categories [] g [] [])
  = categories [band_summary o] g (band_strengths sem o)
      (band_improvements sem o).
Proof.
  unfold summarize, band_summary, band_strengths, band_improvements.
  destruct (Qle_bool 75 o); [| destruct (Qle_bool 50 o)];
    rewrite append_summary;
    repeat match goal with
           | |- context [if ?b then _ else _] => destruct b
           end;
    by_categories.
Qed.

Lemma suggest_specific_categories (missing common : list string) (o : Q)
    (n : Z) (s t a : list string) :
  let earlier :=
    t ++ common_strength common n ++ coverage_strength missing o in
  suggest_specific missing common o n
    (categories s (suggestions_for missing n) t a)
  = categories s (suggestions_for missing n)
      (earlier ++ generic_strength earlier o)
      (a ++ review_note missing o).
Proof.
  intros earlier.
  assert (is_nil (suggestions_for missing n) = is_nil missing) as Hsugg.
  { unfold suggestions_for. by destruct missing. }
  unfold suggest_specific, review_note.
  set (with_common :=
         if negb (is_nil common) then _ else _).
  assert (with_common
          = categories s (suggestions_for missing n)
              (t ++ common_strength common n) a) as ->.
  { subst with_common. unfold common_strength.
    destruct (is_nil common); by_categories. }
  set (with_coverage :=
         if is_nil missing && Qle_bool 70 o then _ else _).
  assert (with_coverage
          = categories s (suggestions_for missing n) earlier a) as ->.
  { subst with_coverage earlier. unfold coverage_strength.
    destruct (is_nil missing && Qle_bool 70 o); by_categories. }
  rewrite item_strengths. unfold generic_strength.
  destruct (is_nil earlier && Qle_bool 60 o);
    rewrite ?append_strengths, item_suggestions, Hsugg;
    destruct (is_nil missing && Qlt_bool o 70); by_categories.
Qed.

Lemma generate_feedback_categories (resume_keywords jd_keywords : list string)
    (s o : Q) (n : Z) :
  generate_feedback resume_keywords jd_keywords s o n
  = consolidate
      (categories [band_summary o]
         (suggestions_for (missing_keywords_of resume_keywords jd_keywords) n)
         (strengths_for resume_keywords jd_keywords s o n)
         (improvements_for resume_keywords jd_keywords s o)).
Proof.
  unfold generate_feedback, strengths_for, improvements_for.
  change initial_feedback with (categories [] [] [] []).
  rewrite suggest_missing_categories, summarize_categories.
  rewrite suggest_specific_categories. by rewrite <- !app_assoc.
Qed.

(** *** Which message can sit where *)

Ltac settle_comparisons :=
  unfold Qlt_bool;
  repeat match goal with
         | |- context [Qle_bool ?a ?b] =>
             first [ rewrite (proj2 (Qle_bool_iff a b)) by lra
                   | rewrite (proj2 (Qle_bool_false a b)) by lra ]
         end;
  cbn [negb andb orb].

Lemma band_strengths_elem (x : string) (s o : Q) :
  x ∈ band_strengths s o →
  x = msg_strong_alignment ∨ x = msg_moderate_alignment ∨ x = msg_aligned.
Proof.
  unfold band_strengths.
  repeat match goal with
         | |- context [if ?b then _ else _] => destruct b
         end;
    rewrite ?list_elem_of_singleton, ?elem_of_nil; tauto.
Qed.

Lemma band_improvements_elem (x : string) (s o : Q) :
  x ∈ band_improvements s o →
  x = msg_tailor_terminology ∨ x = msg_low_semantic
  ∨ x = msg_highlight_skills.
Proof.
  unfold band_improvements.
  repeat match goal with
         | |- context [if ?b then _ else _] => destruct b
         end;
    rewrite ?list_elem_of_singleton, ?elem_of_nil; tauto.
Qed.

Lemma common_strength_elem (x : string) (common : list string) (n : Z) :
  x ∈ common_strength common n → x = msg_common common n.
Proof.
  unfold common_strength. destruct (is_nil common);
    rewrite ?list_elem_of_singleton, ?elem_of_nil; tauto.
Qed.

Lemma coverage_strength_cases (missing : list string) (o : Q) :
  missing = [] ∧ 70 <= o ∧ coverage_strength missing o = [msg_coverage]
  ∨ ¬ (missing = [] ∧ 70 <= o) ∧ coverage_strength missing o = [].
Proof.
  unfold coverage_strength.
  destruct (is_nil missing) eqn:Hm; [apply is_nil_true in Hm
                                    | apply is_nil_false in Hm];
    case_Qle 70 o; simpl; [left | right..]; intuition lra.
Qed.

Lemma review_note_cases (missing : list string) (o : Q) :
  missing = [] ∧ o < 70 ∧ review_note missing o = [msg_review_jd]
  ∨ ¬ (missing = [] ∧ o < 70) ∧ review_note missing o = [].
Proof.
  unfold review_note.
  destruct (is_nil missing) eqn:Hm; [apply is_nil_true in Hm
                                    | apply is_nil_false in Hm];
    case_Qlt o 70; simpl; [left | right..]; intuition lra.
Qed.

Lemma generic_strength_cases (earlier : list string) (o : Q) :
  earlier = [] ∧ 60 <= o
  ∧ generic_strength earlier o = [msg_generic_strength]
  ∨ ¬ (earlier = [] ∧ 60 <= o) ∧ generic_strength earlier o = [].
Proof.
  unfold generic_strength.
  destruct (is_nil earlier) eqn:He; [apply is_nil_true in He
                                    | apply is_nil_false in He];
    case_Qle 60 o; simpl; [left | right..]; intuition lra.
Qed.

(** The generic strength and the coverage strength are no other
    strength. *)
Lemma generic_not_earlier (s o : Q) (common missing : list string) (n : Z) :
  msg_generic_strength
  ∉ band_strengths s o ++ common_strength common n
    ++ coverage_strength missing o.
Proof.
  rewrite !elem_of_app.
  intros [Hin%band_strengths_elem | [Hin%common_strength_elem | Hin]].
  - destruct Hin as [? | [? | ?]]; discriminate.
  - unfold msg_common in Hin. cbv [String.append] in Hin. discriminate.
  - destruct (coverage_strength_cases missing o) as [(_ & _ & Hc) | [_ Hc]];
      rewrite Hc in Hin.
    + apply list_elem_of_singleton in Hin. discriminate.
    + by apply elem_of_nil in Hin.
Qed.

Lemma coverage_not_band_or_common (s o : Q) (common : list string) (n : Z) :
  msg_coverage ∉ band_strengths s o ++ common_strength common n.
Proof.
  rewrite elem_of_app.
  intros [Hin%band_strengths_elem | Hin%common_strength_elem].
  - destruct Hin as [? | [? | ?]]; discriminate.
  - unfold msg_common in Hin. cbv [String.append] in Hin. discriminate.
Qed.

Lemma review_not_band (s o : Q) : msg_review_jd ∉ band_improvements s o.
Proof.
  intros Hin%band_improvements_elem. destruct Hin as [? | [? | ?]];
    discriminate.
Qed.

Lemma no_jd_keywords (resume_keywords : list string) :
  missing_keywords_of resume_keywords [] = []
  ∧ common_keywords_of resume_keywords [] = [].
Proof.
  unfold missing_keywords_of, common_keywords_of, lowered_set.
  rewrite fmap_nil, list_to_set_nil, empty_difference_L.
  rewrite intersection_empty_r_L. by rewrite elements_empty.
Qed.

(** The lists of the returned report. *)
Lemma feedback_strengths (resume_keywords jd_keywords : list string)
    (s o : Q) (n : Z) :
  item "strengths" (generate_feedback resume_keywords jd_keywords s o n)
  = strengths_for resume_keywords jd_keywords s o n.
Proof.
  by rewrite generate_feedback_categories, consolidate_item, item_strengths.
Qed.

Lemma feedback_improvements (resume_keywords jd_keywords : list string)
    (s o : Q) (n : Z) :
  item "areas_for_improvement"
    (generate_feedback resume_keywords jd_keywords s o n)
  = improvements_for resume_keywords jd_keywords s o.
Proof.
  by rewrite generate_feedback_categories, consolidate_item,
    item_improvements.
Qed.

Lemma feedback_summary (resume_keywords jd_keywords : list string)
    (s o : Q) (n : Z) :
  generate_feedback resume_keywords jd_keywords s o n !! "overall_summary"
  = Some [band_summary o].
Proof.
  by rewrite generate_feedback_categories, consolidate_summary.
Qed.

(** The band messages are found nowhere but in the band's own part of
    a category. *)
Lemma strengths_band_elem (x : string)
    (resume_keywords jd_keywords : list string) (s o : Q) (n : Z) :
  x ∈ [msg_strong_alignment; msg_moderate_alignment; msg_aligned] →
  x ∈ strengths_for resume_keywords jd_keywords s o n
  ↔ x ∈ band_strengths s o.
Proof.
  intros Hband. unfold strengths_for. rewrite !elem_of_app.
  split; [| tauto].
  intros [[Hin | [Hin%common_strength_elem | Hin]] | Hin]; [exact Hin | ..];
    exfalso.
  - subst x. unfold msg_common in Hband. cbv [String.append] in Hband.
    rewrite !elem_of_cons, elem_of_nil in Hband.
    destruct Hband as [? | [? | [? | []]]]; discriminate.
  - destruct (coverage_strength_cases
                (missing_keywords_of resume_keywords jd_keywords) o)
      as [(_ & _ & Hc) | [_ Hc]]; rewrite Hc in Hin;
      [apply list_elem_of_singleton in Hin | by apply elem_of_nil in Hin].
    subst x. rewrite !elem_of_cons, elem_of_nil in Hband.
    destruct Hband as [? | [? | [? | []]]]; discriminate.
  - match type of Hin with
    | _ ∈ generic_strength ?e _ =>
        destruct (generic_strength_cases e o) as [(_ & _ & Hg) | [_ Hg]]
    end; rewrite Hg in Hin;
      [apply list_elem_of_singleton in Hin | by apply elem_of_nil in Hin].
    subst x. rewrite !elem_of_cons, elem_of_nil in Hband.
    destruct Hband as [? | [? | [? | []]]]; discriminate.
Qed.

Lemma improvements_band_elem (x : string)
    (resume_keywords jd_keywords : list string) (s o : Q) :
  x ∈ [msg_tailor_terminology; msg_low_semantic; msg_highlight_skills] →
  x ∈ improvements_for resume_keywords jd_keywords s o
  ↔ x ∈ band_improvements s o.
Proof.
  intros Hband. unfold improvements_for. rewrite elem_of_app.
  split; [| tauto]. intros [Hin | Hin]; [exact Hin |]. exfalso.
  destruct (review_note_cases
              (missing_keywords_of resume_keywords jd_keywords) o)
    as [(_ & _ & Hr) | [_ Hr]]; rewrite Hr in Hin;
    [apply list_elem_of_singleton in Hin | by apply elem_of_nil in Hin].
  subst x. rewrite !elem_of_cons, elem_of_nil in Hband.
  destruct Hband as [? | [? | [? | []]]]; discriminate.
Qed.

(** Settles a goal [msg ∈ band list ↔ conditions] or
    [Some [band_summary o] = Some [msg] ↔ conditions] by cases on the
    comparisons the band tests. *)
Ltac by_band_cases :=
  unfold band_strengths, band_improvements, band_summary;
  repeat match goal with
         | |- context [Qle_bool ?a ?b] => case_Qle a b
         | |- context [Qlt_bool ?a ?b] => case_Qlt a b
         end;
  rewrite ?list_elem_of_singleton, ?elem_of_nil;
  (split;
   [ let H := fresh in
     intros H;
     first [ discriminate H
           | contradiction
           | injection H as H;
             unfold msg_excellent, msg_good_potential,
               msg_needs_improvement in H;
             cbv [String.append] in H; discriminate H
           | repeat split; lra ]
   | intros; first [ reflexivity | exfalso; intuition lra ] ]).

(** C1. One score band applies to a call, and the report shows which.
    The summary is the "Excellent match" message exactly from a score of
    75 up, "Good potential" exactly from 50 up to 75, "Needs improvement"
    exactly under 50.  The strong-alignment strength is emitted exactly
    in the high band with a similarity of 0.75 or more, the moderate one
    exactly in the high band from 0.60 up to 0.75, the alignment strength
    exactly in the medium band from 0.60 up, the terminology note exactly
    in the medium band under 0.60, the low-similarity note exactly in the
    low band under 0.50 and the highlight-skills note exactly in the low
    band from 0.50 up. *)
Theorem score_bands (resume_keywords jd_keywords : list string) (s o : Q)
    (n : Z) :
  let feedback := generate_feedback resume_keywords jd_keywords s o n in
  (feedback !! "overall_summary" = Some [msg_excellent o] ↔ 75 <= o)
  ∧ (feedback !! "overall_summary" = Some [msg_good_potential o]
     ↔ 50 <= o ∧ o < 75)
  ∧ (feedback !! "overall_summary" = Some [msg_needs_improvement o]
     ↔ o < 50)
  ∧ (msg_strong_alignment ∈ item "strengths" feedback
     ↔ 75 <= o ∧ 75 # 100 <= s)
  ∧ (msg_moderate_alignment ∈ item "strengths" feedback
     ↔ 75 <= o ∧ s < 75 # 100 ∧ 60 # 100 <= s)
  ∧ (msg_aligned ∈ item "strengths" feedback
     ↔ (50 <= o ∧ o < 75) ∧ 60 # 100 <= s)
  ∧ (msg_tailor_terminology ∈ item "areas_for_improvement" feedback
     ↔ (50 <= o ∧ o < 75) ∧ s < 60 # 100)
  ∧ (msg_low_semantic ∈ item "areas_for_improvement" feedback
     ↔ o < 50 ∧ s < 5 # 10)
  ∧ (msg_highlight_skills ∈ item "areas_for_improvement" feedback
     ↔ o < 50 ∧ 5 # 10 <= s).
Proof.
  intros feedback. subst feedback.
  rewrite feedback_summary, feedback_strengths, feedback_improvements.
  rewrite !strengths_band_elem, !improvements_band_elem
    by (rewrite !elem_of_cons; tauto).
  repeat match goal with |- (_ ↔ _) ∧ _ => split end; by_band_cases.
Qed.

(** C6, as the code has it.  The coverage strength is appended before
    the generic strength is considered: the strengths are the band's,
    then the shared keywords', then the coverage strength when no keyword
    is missing and the score is 70 or more, and last the generic strength
    when all of those are absent and the score is 60 or more; the review
    note follows the band's improvement notes when no keyword is missing
    and the score is under 70.  The generic and the coverage strength
    never appear together: with no job-description keyword, a score of 70
    or more and no band strength, the strengths are the coverage strength
    alone. *)
Theorem fallback_rules_in_code_order
    (resume_keywords jd_keywords : list string) (s o : Q) (n : Z) :
  let feedback := generate_feedback resume_keywords jd_keywords s o n in
  let missing := missing_keywords_of resume_keywords jd_keywords in
  let common := common_keywords_of resume_keywords jd_keywords in
  let earlier :=
    band_strengths s o ++ common_strength common n
    ++ coverage_strength missing o in
  item "strengths" feedback = earlier ++ generic_strength earlier o
  ∧ item "areas_for_improvement" feedback
    = band_improvements s o ++ review_note missing o
  ∧ (msg_coverage ∈ item "strengths" feedback ↔ missing = [] ∧ 70 <= o)
  ∧ (msg_generic_strength ∈ item "strengths" feedback
     ↔ band_strengths s o = [] ∧ common = []
       ∧ ¬ (missing = [] ∧ 70 <= o) ∧ 60 <= o)
  ∧ (msg_review_jd ∈ item "areas_for_improvement" feedback
     ↔ missing = [] ∧ o < 70)
  ∧ ¬ (msg_generic_strength ∈ item "strengths" feedback
       ∧ msg_coverage ∈ item "strengths" feedback)
  ∧ (jd_keywords = [] → 70 <= o → s < 60 # 100 →
     item "strengths" feedback = [msg_coverage]).
Proof.
  intros feedback missing common earlier. subst feedback.
  rewrite feedback_strengths, feedback_improvements.
  unfold strengths_for, improvements_for.
  fold missing common earlier.
  pose proof (generic_not_earlier s o common missing n) as Hgen.
  pose proof (coverage_not_band_or_common s o common n) as Hcov.
  pose proof (review_not_band s o) as Hrev.
  fold earlier in Hgen.
  assert (msg_coverage ∈ earlier ++ generic_strength earlier o
          ↔ missing = [] ∧ 70 <= o) as Hcoverage.
  { subst earlier. rewrite !app_assoc, !elem_of_app, <- elem_of_app.
    destruct (coverage_strength_cases missing o) as [(Hm & Ho & ->) | [Hno ->]];
      destruct (generic_strength_cases
                  ((band_strengths s o ++ common_strength common n) ++ [])
                  o) as [(_ & _ & Hg) | [_ Hg]];
      destruct (generic_strength_cases
                  ((band_strengths s o ++ common_strength common n)
                   ++ [msg_coverage]) o) as [(_ & _ & Hg') | [_ Hg']];
      rewrite ?Hg, ?Hg', ?list_elem_of_singleton, ?elem_of_nil;
      split; try tauto; intros [[? | ?] | ?]; try tauto; discriminate. }
  assert (msg_generic_strength ∈ earlier ++ generic_strength earlier o
          ↔ band_strengths s o = [] ∧ common = []
            ∧ ¬ (missing = [] ∧ 70 <= o) ∧ 60 <= o) as Hgeneric.
  { rewrite elem_of_app.
    assert (earlier = []
            ↔ band_strengths s o = [] ∧ common = []
              ∧ ¬ (missing = [] ∧ 70 <= o)) as Hearlier.
    { subst earlier. unfold common_strength.
      destruct (coverage_strength_cases missing o)
        as [(Hm & Ho & ->) | [Hno ->]];
        destruct (band_strengths s o); destruct common; simpl;
        split; try tauto; try discriminate; intuition discriminate. }
    destruct (generic_strength_cases earlier o) as [(He & Ho & ->) | [Hno ->]];
      rewrite ?list_elem_of_singleton, ?elem_of_nil; tauto. }
  split; [reflexivity |]. split; [reflexivity |].
  split; [exact Hcoverage |]. split; [exact Hgeneric |].
  split.
  { rewrite elem_of_app.
    destruct (review_note_cases missing o) as [(Hm & Ho & ->) | [Hno ->]];
      rewrite ?list_elem_of_singleton, ?elem_of_nil; tauto. }
  split.
  { rewrite Hcoverage, Hgeneric. tauto. }
  intros -> Ho Hs.
  destruct (no_jd_keywords resume_keywords) as [Hm Hc].
  subst earlier missing common. rewrite Hm, Hc.
  unfold band_strengths, common_strength, coverage_strength, generic_strength.
  settle_comparisons. destruct (Qle_bool 75 o); reflexivity.
Qed.

Lemma fallback_rules_in_code_order_witness :
  item "strengths" (generate_feedback ["python"] [] (5 # 10) 72 5)
  = [msg_coverage].
Proof.
  apply (fallback_rules_in_code_order ["python"] [] (5 # 10) 72 5);
    [reflexivity | vm_compute; discriminate | reflexivity].
Defined.

(** C6 as stated fails: with no job-description keyword, a score of 72
    and no other strength, the coverage strength is alone; the generic
    strength is not added. *)
Lemma coverage_strength_suppresses_generic :
  item "strengths" (generate_feedback [] [] (5 # 10) 72 5) = [msg_coverage]
  ∧ msg_generic_strength
    ∉ item "strengths" (generate_feedback [] [] (5 # 10) 72 5).
Proof.
  assert (item "strengths" (generate_feedback [] [] (5 # 10) 72 5)
          = [msg_coverage]) as Heq by (vm_compute; reflexivity).
  split; [exact Heq |]. rewrite Heq, list_elem_of_singleton. discriminate.
Qed.

(** C10. Every category key of the returned report maps to a non-empty
    list, and ['overall_summary'] is always present, with exactly one
    message. *)
Theorem report_categories_nonempty
    (resume_keywords jd_keywords : list string) (s o : Q) (n : Z) :
  (∀ (key : string) (msgs : list string),
     generate_feedback resume_keywords jd_keywords s o n !! key = Some msgs →
     msgs ≠ [])
  ∧ ∃ summary,
      generate_feedback resume_keywords jd_keywords s o n
        !! "overall_summary" = Some [summary].
Proof.
  split.
  - intros key msgs. rewrite generate_feedback_categories.
    apply consolidate_nonempty. discriminate.
  - exists (band_summary o). apply feedback_summary.
Qed.

End FeedbackFacts.

(** ** Text read character by character *)

Lemma string_app_cons (c : ascii) (s t : string) :
  String c s +:+ t = String c (s +:+ t).
Proof. reflexivity. Qed.

Lemma string_app_nil_r (s : string) : s +:+ EmptyString = s.
Proof.
  induction s as [| c s IH]; [reflexivity |].
  by rewrite string_app_cons, IH.
Qed.

Lemma string_app_assoc (s t u : string) : (s +:+ t) +:+ u = s +:+ t +:+ u.
Proof.
  induction s as [| c s IH]; [reflexivity |].
  by rewrite !string_app_cons, IH.
Qed.

Lemma string_app_length (s t : string) :
  String.length (s +:+ t) = (String.length s + String.length t)%nat.
Proof. induction s as [| c s IH]; [reflexivity |]. simpl. by rewrite IH. Qed.

Lemma after_length (prefix s rest : string) :
  after prefix s = Some rest →
  String.length s = (String.length prefix + String.length rest)%nat.
Proof.
  revert s. induction prefix as [| a prefix IH]; intros [| b s]; simpl;
    try discriminate; [by intros [= <-] | by intros [= <-] |].
  destruct (Ascii.eqb a b); [| discriminate]. intros Hrest.
  by rewrite (IH _ Hrest).
Qed.

Lemma after_app (prefix s rest t : string) :
  after prefix s = Some rest → after prefix (s +:+ t) = Some (rest +:+ t).
Proof.
  revert s. induction prefix as [| a prefix IH]; intros [| b s]; simpl;
    try discriminate; [by intros [= <-] | by intros [= <-] |].
  destruct (Ascii.eqb a b); [apply IH | discriminate].
Qed.

(** A prefix whose bytes are outside the ASCII range does not reach into
    a text that starts with an ASCII character. *)
Lemma after_beyond (prefix w t : string) :
  all_chars not_ascii prefix = true → low_start t = true →
  after prefix w = None → after prefix (w +:+ t) = None.
Proof.
  revert w. induction prefix as [| a prefix IH]; intros w Hhigh Hlow;
    [by destruct w |].
  simpl in Hhigh. apply andb_true_iff in Hhigh as [Ha Hhigh].
  destruct w as [| b w].
  - intros _. destruct t as [| c t]; [reflexivity |]. simpl.
    destruct (Ascii.eqb_spec a c) as [-> | _]; [| reflexivity].
    simpl in Hlow. unfold not_ascii in Ha. by rewrite Hlow in Ha.
  - simpl. destruct (Ascii.eqb a b); [by apply IH | reflexivity].
Qed.

Lemma after_past_first (prefix w t : string) :
  high_tail prefix = true → low_start t = true → w ≠ EmptyString →
  after prefix w = None → after prefix (w +:+ t) = None.
Proof.
  intros Hhigh Hlow Hw. destruct prefix as [| a prefix]; [done |].
  destruct w as [| b w]; [done |]. simpl.
  destruct (Ascii.eqb a b); [| done]. by apply after_beyond.
Qed.

Lemma whitespace_high_tail :
  Forall (λ space, high_tail space = true) whitespace.
Proof. vm_compute. repeat constructor. Qed.

Lemma space_prefix_None (s : string) :
  space_prefix s = None ↔ ∀ space, space ∈ whitespace → after space s = None.
Proof.
  unfold space_prefix. rewrite head_None. split.
  - intros Hnil space Hin. destruct (after space s) as [rest |] eqn:Hafter;
      [| reflexivity].
    assert (rest ∈ omap (λ space, after space s) whitespace) as Hrest
      by (apply list_elem_of_omap; eauto).
    rewrite Hnil in Hrest. by apply elem_of_nil in Hrest.
  - intros Hnone.
    destruct (omap (λ space, after space s) whitespace) as [| rest l] eqn:Hl;
      [reflexivity |].
    assert (rest ∈ omap (λ space, after space s) whitespace) as Hrest
      by (rewrite Hl; apply list_elem_of_here).
    apply list_elem_of_omap in Hrest as (space & Hin & Hafter).
    by rewrite (Hnone _ Hin) in Hafter.
Qed.

Lemma space_prefix_Some (s rest : string) :
  space_prefix s = Some rest →
  ∃ space, space ∈ whitespace ∧ after space s = Some rest.
Proof.
  unfold space_prefix. intros Hhead.
  assert (rest ∈ omap (λ space, after space s) whitespace) as Hrest.
  { destruct (omap (λ space, after space s) whitespace); [done |].
    injection Hhead as ->. apply list_elem_of_here. }
  by apply list_elem_of_omap in Hrest.
Qed.

Lemma space_prefix_shorter (s rest : string) :
  space_prefix s = Some rest → (String.length rest < String.length s)%nat.
Proof.
  intros (space & Hin & Hafter)%space_prefix_Some.
  apply after_length in Hafter. rewrite Hafter.
  pose proof whitespace_high_tail as Hhigh.
  rewrite Forall_forall in Hhigh. specialize (Hhigh _ Hin).
  destruct space; [done |]. simpl. lia.
Qed.

Lemma space_prefix_nil : space_prefix EmptyString = None.
Proof. reflexivity. Qed.

(** A whitespace character found in a text is found in any extension of
    the text. *)
Lemma space_prefix_app_None (s t : string) :
  space_prefix (s +:+ t) = None → space_prefix s = None.
Proof.
  rewrite !space_prefix_None. intros Hnone space Hin.
  destruct (after space s) as [rest |] eqn:Hafter; [| reflexivity].
  specialize (Hnone _ Hin). by rewrite (after_app _ _ _ t Hafter) in Hnone.
Qed.

(** An ASCII byte after a text cannot complete a whitespace character
    begun in the text. *)
Lemma space_prefix_before_ascii (w t : string) :
  w ≠ EmptyString → low_start t = true →
  space_prefix w = None → space_prefix (w +:+ t) = None.
Proof.
  rewrite !space_prefix_None. intros Hw Hlow Hnone space Hin.
  pose proof whitespace_high_tail as Hhigh.
  rewrite Forall_forall in Hhigh.
  apply after_past_first; auto.
Qed.

(** *** The scans unfolded *)

Lemma whitespace_only_within_enough (fuel fuel' : nat) (s : string) :
  (String.length s ≤ fuel)%nat → (String.length s ≤ fuel')%nat →
  whitespace_only_within fuel s = whitespace_only_within fuel' s.
Proof.
  revert fuel' s. induction fuel as [| fuel IH]; intros fuel' s Hfuel Hfuel'.
  - destruct s; [by destruct fuel' | simpl in Hfuel; lia].
  - destruct s as [| c s]; [by destruct fuel' |].
    destruct fuel' as [| fuel']; [simpl in Hfuel'; lia |]. simpl.
    destruct (space_prefix (String c s)) as [rest |] eqn:Hspace;
      [| reflexivity].
    apply space_prefix_shorter in Hspace. simpl in *. apply IH; lia.
Qed.

Lemma whitespace_only_space (s rest : string) :
  space_prefix s = Some rest → whitespace_only s = whitespace_only rest.
Proof.
  intros Hspace. unfold whitespace_only.
  destruct s as [| c s]; [done |]. simpl. rewrite Hspace.
  apply space_prefix_shorter in Hspace. simpl in Hspace.
  apply whitespace_only_within_enough; lia.
Qed.

Lemma whitespace_only_byte (c : ascii) (rest : string) :
  space_prefix (String c rest) = None →
  whitespace_only (String c rest) = false.
Proof. intros Hspace. unfold whitespace_only. simpl. by rewrite Hspace. Qed.

Lemma lstrip_within_enough (fuel fuel' : nat) (s : string) :
  (String.length s ≤ fuel)%nat → (String.length s ≤ fuel')%nat →
  lstrip_within fuel s = lstrip_within fuel' s.
Proof.
  revert fuel' s. induction fuel as [| fuel IH]; intros fuel' s Hfuel Hfuel'.
  - destruct s; [by destruct fuel' | simpl in Hfuel; lia].
  - destruct fuel' as [| fuel'].
    + destruct s; [reflexivity | simpl in Hfuel'; lia].
    + simpl. destruct (space_prefix s) as [rest |] eqn:Hspace;
        [| reflexivity].
      apply space_prefix_shorter in Hspace. apply IH; lia.
Qed.

Lemma lstrip_space (s rest : string) :
  space_prefix s = Some rest → lstrip s = lstrip rest.
Proof.
  intros Hspace. unfold lstrip.
  pose proof (space_prefix_shorter _ _ Hspace) as Hshorter.
  destruct (String.length s) as [| n] eqn:Hlen; [lia |]. simpl.
  rewrite Hspace. apply lstrip_within_enough; lia.
Qed.

Lemma lstrip_none (s : string) : space_prefix s = None → lstrip s = s.
Proof.
  intros Hspace. unfold lstrip. destruct (String.length s); simpl;
    [reflexivity | by rewrite Hspace].
Qed.

Lemma split_within_enough (fuel fuel' : nat) (word text : string) :
  (String.length text ≤ fuel)%nat → (String.length text ≤ fuel')%nat →
  split_within fuel word text = split_within fuel' word text.
Proof.
  revert fuel' word text.
  induction fuel as [| fuel IH]; intros fuel' word text Hfuel Hfuel'.
  - destruct text; [by destruct fuel' | simpl in Hfuel; lia].
  - destruct text as [| c text]; [by destruct fuel' |].
    destruct fuel' as [| fuel']; [simpl in Hfuel'; lia |]. simpl.
    destruct (space_prefix (String c text)) as [rest |] eqn:Hspace.
    + apply space_prefix_shorter in Hspace. simpl in *.
      f_equal. apply IH; lia.
    + simpl in *. apply IH; lia.
Qed.

Lemma split_from_nil (word : string) : split_from word EmptyString = flush word.
Proof. reflexivity. Qed.

Lemma split_from_space (word text rest : string) :
  space_prefix text = Some rest →
  split_from word text = flush word ++ split_from EmptyString rest.
Proof.
  intros Hspace. unfold split_from.
  destruct text as [| c text]; [done |]. simpl. rewrite Hspace.
  apply space_prefix_shorter in Hspace. simpl in Hspace.
  f_equal. apply split_within_enough; lia.
Qed.

Lemma split_from_byte (word : string) (c : ascii) (rest : string) :
  space_prefix (String c rest) = None →
  split_from word (String c rest)
  = split_from (word +:+ String c EmptyString) rest.
Proof. intros Hspace. unfold split_from. simpl. by rewrite Hspace. Qed.

(** Induction along a scan: a text is empty, starts with a whitespace
    character, or starts with a byte that is not one. *)
Lemma scan_ind (P : string → Prop) :
  P EmptyString →
  (∀ s rest, space_prefix s = Some rest → P rest → P s) →
  (∀ c rest, space_prefix (String c rest) = None → P rest →
             P (String c rest)) →
  ∀ s, P s.
Proof.
  intros Hnil Hspace Hbyte s.
  remember (String.length s) as n eqn:Hn. revert s Hn.
  induction n as [n IH] using lt_wf_ind. intros s ->.
  destruct s as [| c rest]; [exact Hnil |].
  destruct (space_prefix (String c rest)) as [rest' |] eqn:Hprefix.
  - apply (Hspace _ _ Hprefix).
    apply (IH (String.length rest')); [| reflexivity].
    by apply space_prefix_shorter.
  - apply (Hbyte _ _ Hprefix).
    apply (IH (String.length rest)); [simpl; lia | reflexivity].
Qed.

(** *** Words *)

Lemma starts_with_space_false (s : string) :
  starts_with_space s = false ↔ space_prefix s = None.
Proof. unfold starts_with_space. by destruct (space_prefix s). Qed.

Lemma no_space_cons (c : ascii) (rest : string) :
  no_space (String c rest) = true
  ↔ space_prefix (String c rest) = None ∧ no_space rest = true.
Proof.
  simpl. by rewrite andb_true_iff, negb_true_iff, starts_with_space_false.
Qed.

Lemma no_space_before_cons (text : string) (c : ascii) (rest : string) :
  no_space_before text (String c rest) = true
  ↔ space_prefix (String c rest +:+ text) = None
    ∧ no_space_before text rest = true.
Proof.
  cbn [no_space_before].
  by rewrite andb_true_iff, negb_true_iff, starts_with_space_false.
Qed.

Lemma no_space_before_alone (text word : string) :
  no_space_before text word = true → no_space word = true.
Proof.
  induction word as [| c word IH]; [done |].
  rewrite no_space_before_cons, no_space_cons. intros [Hspace Hword].
  split; [by apply (space_prefix_app_None _ text) | by apply IH].
Qed.

Lemma no_space_before_byte (word : string) (c : ascii) (rest : string) :
  no_space_before (String c rest) word = true →
  space_prefix (String c rest) = None →
  no_space_before rest (word +:+ String c EmptyString) = true.
Proof.
  intros Hword Hc. induction word as [| a word IH].
  - apply no_space_before_cons. by split.
  - apply no_space_before_cons in Hword as [Ha Hword].
    rewrite string_app_cons. apply no_space_before_cons.
    split; [| by apply IH].
    by rewrite <- string_app_cons, string_app_assoc.
Qed.

Lemma flush_words (word : string) :
  no_space word = true → Forall is_word (flush word).
Proof.
  intros Hword. unfold flush. destruct word; simpl; [constructor |].
  by repeat constructor.
Qed.

Lemma split_from_words (text word : string) :
  no_space_before text word = true → Forall is_word (split_from word text).
Proof.
  revert word. induction text as [| text rest Hspace IH | c rest Hc IH]
    using scan_ind; intros word Hword.
  - rewrite split_from_nil. by apply flush_words, (no_space_before_alone "").
  - rewrite (split_from_space _ _ _ Hspace). apply Forall_app.
    split; [by apply flush_words, (no_space_before_alone text) |].
    by apply IH.
  - rewrite (split_from_byte _ _ _ Hc). by apply IH, no_space_before_byte.
Qed.

(** Reading a piece of text without whitespace moves it to the pending
    word. *)
Lemma split_from_prefix (piece word rest : string) :
  no_space piece = true → low_start rest = true →
  split_from word (piece +:+ rest) = split_from (word +:+ piece) rest.
Proof.
  intros Hpiece Hrest. revert word Hpiece.
  induction piece as [| c piece IH]; intros word Hpiece.
  - by rewrite string_app_nil_r.
  - apply no_space_cons in Hpiece as [Hc Hpiece].
    rewrite string_app_cons, split_from_byte.
    + rewrite (IH _ Hpiece). by rewrite string_app_assoc.
    + rewrite <- string_app_cons. by apply space_prefix_before_ascii.
Qed.

Lemma space_prefix_blank (rest : string) :
  space_prefix (String " " rest) = Some rest.
Proof. reflexivity. Qed.

Lemma split_join_words (words : list string) :
  Forall is_word words → split (join " " words) = words.
Proof.
  unfold split, join. induction 1 as [| word words [Hne Hword] Hwords IH];
    [reflexivity |].
  destruct words as [| next words].
  - simpl. rewrite <- (string_app_nil_r word) at 1.
    rewrite (split_from_prefix word _ _ Hword) by reflexivity.
    rewrite split_from_nil. unfold flush. by destruct word.
  - change (String.concat " " (word :: next :: words))
      with (word +:+ String " " (String.concat " " (next :: words))).
    rewrite (split_from_prefix word _ _ Hword) by reflexivity.
    rewrite (split_from_space _ _ _ (space_prefix_blank _)).
    rewrite IH. unfold flush. by destruct word.
Qed.

Lemma split_words (text : string) : Forall is_word (split text).
Proof. by apply split_from_words. Qed.

Lemma collapse_whitespace_idempotent (text : string) :
  TextProcessor.collapse_whitespace (TextProcessor.collapse_whitespace text)
  = TextProcessor.collapse_whitespace text.
Proof.
  unfold TextProcessor.collapse_whitespace.
  rewrite split_join_words; [reflexivity |]. apply split_words.
Qed.

(** *** The characters of the words *)

Lemma all_chars_app (p : ascii → bool) (s t : string) :
  all_chars p (s +:+ t) = all_chars p s && all_chars p t.
Proof.
  induction s as [| c s IH]; [reflexivity |].
  rewrite string_app_cons. simpl. by rewrite IH, andb_assoc.
Qed.

Lemma all_chars_after (p : ascii → bool) (prefix s rest : string) :
  after prefix s = Some rest → all_chars p s = true →
  all_chars p rest = true.
Proof.
  revert s. induction prefix as [| a prefix IH]; intros [| b s]; simpl;
    try discriminate; [by intros [= <-] | by intros [= <-] |].
  destruct (Ascii.eqb a b); [| discriminate].
  intros Hafter [_ Hs]%andb_true_iff. by apply (IH s).
Qed.

Lemma all_chars_space_prefix (p : ascii → bool) (s rest : string) :
  space_prefix s = Some rest → all_chars p s = true →
  all_chars p rest = true.
Proof.
  intros (space & _ & Hafter)%space_prefix_Some.
  by apply (all_chars_after p space).
Qed.

Lemma all_chars_flush (p : ascii → bool) (word : string) :
  all_chars p word = true → Forall (λ w, all_chars p w = true) (flush word).
Proof.
  intros Hword. unfold flush. destruct (is_empty word); by repeat constructor.
Qed.

(** The words of a text have no character the text does not have. *)
Lemma all_chars_split_from (p : ascii → bool) (text word : string) :
  all_chars p word = true → all_chars p text = true →
  Forall (λ w, all_chars p w = true) (split_from word text).
Proof.
  revert word. induction text as [| text rest Hspace IH | c rest Hc IH]
    using scan_ind; intros word Hword Htext.
  - rewrite split_from_nil. by apply all_chars_flush.
  - rewrite (split_from_space _ _ _ Hspace). apply Forall_app.
    split; [by apply all_chars_flush |].
    apply IH; [reflexivity |]. by apply (all_chars_space_prefix p text).
  - rewrite (split_from_byte _ _ _ Hc).
    simpl in Htext. apply andb_true_iff in Htext as [Hpc Hrest].
    apply IH; [| exact Hrest].
    rewrite all_chars_app, Hword. simpl. by rewrite Hpc.
Qed.

(** *** Blank strings and stripped strings *)

Lemma rstrip_empty (s : string) : is_empty (rstrip s) = whitespace_only s.
Proof.
  destruct s as [| c rest]; [reflexivity |]. cbn [rstrip].
  by destruct (whitespace_only (String c rest)).
Qed.

Lemma lstrip_whitespace_only (s : string) :
  whitespace_only (lstrip s) = whitespace_only s.
Proof.
  induction s as [| s rest Hspace IH | c rest Hc _] using scan_ind.
  - reflexivity.
  - by rewrite (lstrip_space _ _ Hspace), (whitespace_only_space _ _ Hspace).
  - by rewrite (lstrip_none _ Hc).
Qed.

(** [not text.strip()] says that the text is empty or whitespace-only. *)
Lemma strip_empty (s : string) : is_empty (strip s) = whitespace_only s.
Proof. unfold strip. by rewrite rstrip_empty, lstrip_whitespace_only. Qed.

Lemma lstrip_word_first (word rest : string) :
  is_word word → low_start rest = true →
  lstrip (word +:+ rest) = word +:+ rest.
Proof.
  intros [Hne Hword] Hrest. apply lstrip_none.
  destruct word as [| c word]; [done |].
  apply no_space_cons in Hword as [Hc _].
  by apply space_prefix_before_ascii.
Qed.

(** A word is kept whole by [rstrip], alone or before a blank and a
    text that [rstrip] keeps. *)
Lemma rstrip_word_first (word rest : string) :
  is_word word →
  rest = EmptyString
  ∨ (∃ next, rest = String " " next ∧ next ≠ EmptyString
             ∧ rstrip next = next) →
  rstrip (word +:+ rest) = word +:+ rest.
Proof.
  intros [Hne Hword] Hrest.
  assert (low_start rest = true) as Hlow
    by (destruct Hrest as [-> | (next & -> & _)]; reflexivity).
  assert (rstrip rest = rest) as Hkept.
  { destruct Hrest as [-> | (next & -> & Hnext & Hkept)]; [reflexivity |].
    cbn [rstrip].
    rewrite (whitespace_only_space _ _ (space_prefix_blank next)).
    rewrite <- rstrip_empty, Hkept. by destruct next. }
  clear Hrest. induction word as [| c word IH]; [done |].
  apply no_space_cons in Hword as [Hc Hword].
  rewrite string_app_cons. cbn [rstrip].
  rewrite whitespace_only_byte
    by (rewrite <- string_app_cons; by apply space_prefix_before_ascii).
  f_equal. destruct word as [| c' word]; [exact Hkept |]. by apply IH.
Qed.

Lemma join_words_not_empty (words : list string) :
  Forall is_word words → words ≠ [] → join " " words ≠ EmptyString.
Proof.
  intros Hwords Hne. destruct Hwords as [| word words [Hword _] _];
    [done |].
  unfold join. destruct words as [| next words]; [exact Hword |].
  change (String.concat " " (word :: next :: words))
    with (word +:+ String " " (String.concat " " (next :: words))).
  by destruct word.
Qed.

Lemma rstrip_join_words (words : list string) :
  Forall is_word words → rstrip (join " " words) = join " " words.
Proof.
  induction 1 as [| word words Hword Hwords IH]; [reflexivity |].
  destruct words as [| next words].
  - unfold join. simpl. rewrite <- (string_app_nil_r word).
    apply rstrip_word_first; [exact Hword | by left].
  - change (join " " (word :: next :: words))
      with (word +:+ String " " (join " " (next :: words))).
    apply rstrip_word_first; [exact Hword |]. right.
    exists (join " " (next :: words)).
    split; [reflexivity |]. split; [| exact IH].
    by apply join_words_not_empty.
Qed.

(** Words joined by single blanks have no whitespace at either end. *)
Lemma strip_join_words (words : list string) :
  Forall is_word words → strip (join " " words) = join " " words.
Proof.
  intros Hwords. unfold strip.
  assert (lstrip (join " " words) = join " " words) as ->;
    [| by apply rstrip_join_words].
  destruct Hwords as [| word words Hword Hwords]; [reflexivity |].
  destruct words as [| next words].
  - unfold join. simpl. rewrite <- (string_app_nil_r word).
    by apply lstrip_word_first.
  - change (join " " (word :: next :: words))
      with (word +:+ String " " (join " " (next :: words))).
    by apply lstrip_word_first.
Qed.

Lemma collapse_whitespace_stripped (text : string) :
  strip (TextProcessor.collapse_whitespace text)
  = TextProcessor.collapse_whitespace text.
Proof. apply strip_join_words, split_words. Qed.

(** ** backend/semantic_analyzer.py *)
Section SemanticFacts.

Import SemanticAnalyzer.
Local Open Scope R_scope.

(** C4. The edge policy of [calculate_semantic_similarity]: without a
    model every call returns 0.0; with one, a non-string input gives 0.0,
    two blank inputs give 1.0, exactly one blank input gives 0.0, and a
    failure while encoding or comparing gives 0.0.  The function is
    total: no call raises. *)
Theorem similarity_edge_policy :
  (∀ text1 text2 : pyobj, calculate_semantic_similarity None text1 text2 = 0)
  ∧ (∀ (model : encoder) (text1 text2 : pyobj),
       is_str text1 = false ∨ is_str text2 = false →
       calculate_semantic_similarity (Some model) text1 text2 = 0)
  ∧ (∀ (model : encoder) (s1 s2 : string),
       whitespace_only s1 = true → whitespace_only s2 = true →
       calculate_semantic_similarity (Some model) (PyStr s1) (PyStr s2) = 1)
  ∧ (∀ (model : encoder) (s1 s2 : string),
       whitespace_only s1 ≠ whitespace_only s2 →
       calculate_semantic_similarity (Some model) (PyStr s1) (PyStr s2) = 0)
  ∧ (∀ (model : encoder) (s1 s2 : string),
       whitespace_only s1 = false → whitespace_only s2 = false →
       model [s1; s2] = None ∨ encode_and_compare model s1 s2 = None →
       calculate_semantic_similarity (Some model) (PyStr s1) (PyStr s2) = 0).
Proof.
  repeat split.
  - intros model [s1 | |] [s2 | |] [Hstr | Hstr]; try reflexivity;
      discriminate.
  - intros model s1 s2 H1 H2. simpl. by rewrite !strip_empty, H1, H2.
  - intros model s1 s2 Hne. simpl. rewrite !strip_empty.
    destruct (whitespace_only s1), (whitespace_only s2);
      try reflexivity; congruence.
  - intros model s1 s2 H1 H2 Hfail. simpl. rewrite !strip_empty, H1, H2.
    simpl.
    assert (encode_and_compare model s1 s2 = None) as ->; [| reflexivity].
    destruct Hfail as [Hfail | Hfail]; [| exact Hfail].
    unfold encode_and_compare. by rewrite Hfail.
Qed.

(** The policy at work; the no-break space U+00A0 and the ideographic
    space U+3000 are whitespace like the blank and the tab. *)
Lemma similarity_edge_policy_witness :
  calculate_semantic_similarity (Some opposite_encoder) (PyInt 12345)
    (PyStr "python developer") = 0
  ∧ calculate_semantic_similarity (Some opposite_encoder) (PyStr EmptyString)
      (PyStr " ") = 1
  ∧ calculate_semantic_similarity (Some opposite_encoder)
      (PyStr (utf8 0xA0)) (PyStr EmptyString) = 1
  ∧ calculate_semantic_similarity (Some opposite_encoder)
      (PyStr "python developer") (PyStr " ") = 0
  ∧ calculate_semantic_similarity (Some opposite_encoder)
      (PyStr "python developer") (PyStr (utf8 0x9 +:+ utf8 0x3000)) = 0
  ∧ calculate_semantic_similarity (Some failing_encoder)
      (PyStr "python developer") (PyStr "java developer") = 0.
Proof.
  destruct similarity_edge_policy as (_ & Hstr & Hboth & Hone & Hfail).
  split; [apply Hstr; left; reflexivity |].
  split; [apply Hboth; reflexivity |].
  split; [apply Hboth; reflexivity |].
  split; [apply Hone; vm_compute; discriminate |].
  split; [apply Hone; vm_compute; discriminate |].
  apply Hfail; [reflexivity | reflexivity | left; reflexivity].
Defined.

Lemma unit_norm (x : R) : x * x = 1 → sqrt (dot [x; 0] [x; 0]) = 1.
Proof.
  intros Hx. unfold dot. simpl.
  replace (x * x + (0 * 0 + 0)) with 1 by lra. apply sqrt_1.
Qed.

(** C3 fails on the path through the embeddings: for two texts whose
    embeddings point in opposite directions the function returns the
    cosine -1, outside [0, 1]; nothing clamps it. *)
Theorem similarity_of_opposite_embeddings :
  calculate_semantic_similarity (Some opposite_encoder)
    (PyStr "good") (PyStr "bad") = -1
  ∧ ¬ (0 <= calculate_semantic_similarity (Some opposite_encoder)
              (PyStr "good") (PyStr "bad") <= 1).
Proof.
  assert (calculate_semantic_similarity (Some opposite_encoder)
            (PyStr "good") (PyStr "bad") = -1) as Heq.
  { unfold calculate_semantic_similarity.
    change (is_empty (strip "good")) with false.
    change (is_empty (strip "bad")) with false.
    cbn [orb]. unfold encode_and_compare, opposite_encoder. simpl.
    unfold cosine_similarity. simpl. unfold normalize.
    rewrite !unit_norm by lra.
    destruct (Req_dec_T 1 0) as [Habs | _]; [lra |].
    unfold dot. simpl. lra. }
  split; [exact Heq |]. rewrite Heq. lra.
Qed.

End SemanticFacts.

(** ** backend/keyword_extractor.py *)
Section KeywordFacts.

Import KeywordExtractor.

(** *** Sorted lists and their sublists *)

Lemma StronglySorted_sublist {A : Type} (R : relation A) (l k : list A) :
  k `sublist_of` l → StronglySorted R l → StronglySorted R k.
Proof.
  induction 1 as [| x k l Hsub IH | x k l Hsub IH]; intros Hsorted.
  - constructor.
  - apply StronglySorted_inv in Hsorted as [Htail Hhead].
    constructor; [by apply IH |].
    apply Forall_forall. intros y Hy.
    rewrite Forall_forall in Hhead. apply Hhead.
    by eapply elem_of_sublist.
  - apply StronglySorted_inv in Hsorted as [Htail _]. by apply IH.
Qed.

Lemma StronglySorted_weaken {A : Type} (R R' : relation A) (l : list A) :
  (∀ x y, R x y → R' x y) → StronglySorted R l → StronglySorted R' l.
Proof.
  intros Himpl. induction 1 as [| x l Htail IH Hhead]; constructor;
    [exact IH |].
  eapply Forall_impl; [exact Hhead | apply Himpl].
Qed.

(** A sorted list read through a relation between its elements and those
    of a second list. *)
Lemma StronglySorted_Forall2 {A B : Type} (R : relation A) (R' : relation B)
    (P : A → B → Prop) (l : list A) (k : list B) :
  (∀ a a' b b', P a b → P a' b' → R a a' → R' b b') →
  Forall2 P l k → StronglySorted R l → StronglySorted R' k.
Proof.
  intros Htransfer Hrel. induction Hrel as [| a b l k Hab Hrel IH].
  - constructor.
  - intros [Htail Hhead]%StronglySorted_inv.
    constructor; [by apply IH |].
    clear IH Htail. induction Hrel as [| a' b' l k Hab' Hrel IH];
      [constructor |].
    apply Forall_cons in Hhead as [Hfirst Hrest].
    constructor; [by eapply Htransfer | by apply IH].
Qed.

(** *** The order of the columns *)

Global Instance score_le_total (row : list Q) : Total (score_le row).
Proof.
  intros i j. unfold score_le.
  destruct (Qle_bool (score_at row i) (score_at row j)) eqn:Hij; [by left |].
  right. apply Qle_bool_false in Hij. apply Is_true_true, Qle_bool_iff.
  by apply Qlt_le_weak.
Qed.

Global Instance score_le_transitive (row : list Q) :
  Transitive (score_le row).
Proof.
  intros i j k. unfold score_le.
  rewrite !Is_true_true, !Qle_bool_iff. apply Qle_trans.
Qed.

Lemma argsort_NoDup (row : list Q) : NoDup (argsort row).
Proof.
  unfold argsort. rewrite merge_sort_Permutation. apply NoDup_seq.
Qed.

(** Read from the last index to the first, [argsort] lists the columns by
    descending score. *)
Lemma argsort_descending (row : list Q) :
  StronglySorted (λ i j, score_at row j <= score_at row i)
    (reverse (argsort row)).
Proof.
  assert (StronglySorted (flip (score_le row)) (reverse (argsort row)))
    as Hsorted.
  { apply Sorted_StronglySorted; [apply _ |].
    apply Sorted_reverse, Sorted_merge_sort, _. }
  eapply StronglySorted_weaken; [| exact Hsorted].
  intros i j Hij. unfold flip, score_le in Hij.
  by apply Is_true_true, Qle_bool_iff in Hij.
Qed.

Lemma py_slice_to_sublist {A : Type} (n : Z) (l : list A) :
  py_slice_to n l `sublist_of` l.
Proof. unfold py_slice_to. destruct (n <? 0)%Z; apply sublist_take. Qed.

Lemma py_slice_to_length {A : Type} (n : Z) (l : list A) :
  (0 ≤ n)%Z → (Z.of_nat (length (py_slice_to n l)) ≤ n)%Z.
Proof.
  intros Hn. unfold py_slice_to.
  destruct (n <? 0)%Z eqn:Hneg; [lia |]. rewrite length_take. lia.
Qed.

Lemma doc_keyword_columns_sublist (row : list Q) (top_n : Z) :
  doc_keyword_columns row top_n `sublist_of` reverse (argsort row).
Proof.
  unfold doc_keyword_columns.
  etrans; [apply sublist_filter | apply py_slice_to_sublist].
Qed.

Lemma doc_keyword_columns_positive (row : list Q) (top_n : Z) :
  Forall (λ idx, 0 < score_at row idx) (doc_keyword_columns row top_n).
Proof.
  apply Forall_forall. intros idx [Hpos _]%list_elem_of_filter.
  by apply Is_true_true, Qlt_bool_iff in Hpos.
Qed.

Lemma doc_keyword_columns_length (row : list Q) (top_n : Z) :
  (0 ≤ top_n)%Z →
  (Z.of_nat (length (doc_keyword_columns row top_n)) ≤ top_n)%Z.
Proof.
  intros Hn. unfold doc_keyword_columns.
  pose proof (py_slice_to_length top_n (reverse (argsort row)) Hn) as Hslice.
  pose proof (sublist_length _ _
                (sublist_filter (λ idx, Qlt_bool 0 (score_at row idx))
                   (py_slice_to top_n (reverse (argsort row))))) as Hfilter.
  lia.
Qed.

(** *** From columns to terms *)

Lemma column_of_lookup (names : list string) (idx : nat) (term : string) :
  NoDup names → names !! idx = Some term → column_of names term = Some idx.
Proof.
  intros Hnodup. revert idx.
  induction Hnodup as [| name rest Hfresh Hnodup IH]; intros idx Hidx;
    [done |].
  simpl. destruct idx as [| idx]; simpl in Hidx.
  - injection Hidx as ->. by rewrite String.eqb_refl.
  - destruct (String.eqb name term) eqn:Heq.
    + apply String.eqb_eq in Heq as ->.
      exfalso. apply Hfresh. by eapply list_elem_of_lookup_2.
    + by rewrite (IH idx Hidx).
Qed.

Lemma term_score_lookup (names : list string) (row : list Q) (idx : nat)
    (term : string) :
  NoDup names → names !! idx = Some term →
  term_score names row term = score_at row idx.
Proof.
  intros Hnodup Hidx. unfold term_score.
  by rewrite (column_of_lookup names idx term Hnodup Hidx).
Qed.

Lemma named_columns_NoDup (names : list string) (cols : list nat)
    (terms : list string) :
  NoDup names → Forall2 (λ idx term, names !! idx = Some term) cols terms →
  NoDup cols → NoDup terms.
Proof.
  intros Hnames Hrel. induction Hrel as [| idx term cols terms Hidx Hrel IH];
    [constructor |].
  intros [Hfresh Hcols]%NoDup_cons. apply NoDup_cons. split; [| by apply IH].
  intros Hin. apply Hfresh.
  apply list_elem_of_lookup_1 in Hin as [k Hk].
  destruct (Forall2_lookup_r _ _ _ _ _ Hrel Hk) as (idx' & Hidx' & Hterm).
  rewrite (NoDup_lookup names idx idx' term Hnames Hidx Hterm).
  by eapply list_elem_of_lookup_2.
Qed.

(** The invariant of one keyword list. *)
Lemma doc_keywords_invariant (names : list string) (row : list Q)
    (top_n : Z) (keywords : list string) :
  NoDup names → doc_keywords names row top_n = Some keywords →
  NoDup keywords
  ∧ ((0 ≤ top_n)%Z → (Z.of_nat (length keywords) ≤ top_n)%Z)
  ∧ Forall (λ term, 0 < term_score names row term) keywords
  ∧ StronglySorted
      (λ term later, term_score names row later <= term_score names row term)
      keywords.
Proof.
  intros Hnames Hkw. unfold doc_keywords in Hkw.
  apply mapM_Some in Hkw.
  split; [| split; [| split]].
  - apply (named_columns_NoDup names _ _ Hnames Hkw).
    eapply sublist_NoDup; [| apply doc_keyword_columns_sublist].
    rewrite reverse_Permutation. apply argsort_NoDup.
  - intros Hn. rewrite <- (Forall2_length _ _ _ Hkw).
    by apply doc_keyword_columns_length.
  - eapply Forall2_Forall_r; [exact Hkw |].
    eapply Forall_impl; [apply doc_keyword_columns_positive |].
    intros idx Hpos term Hterm. simpl.
    by rewrite (term_score_lookup names row idx term).
  - refine (StronglySorted_Forall2
              (λ i j, score_at row j <= score_at row i) _ _ _ _ _ Hkw _).
    + intros i j term later Hi Hj Hle.
      rewrite (term_score_lookup names row i term),
        (term_score_lookup names row j later); done.
    + eapply StronglySorted_sublist; [apply doc_keyword_columns_sublist |].
      apply argsort_descending.
Qed.

Lemma all_strings_of_strings (docs : list string) :
  all_strings (PyStr <$> docs) = Some docs.
Proof.
  apply mapM_Some. induction docs as [| doc docs IH]; csimpl; by constructor.
Qed.

Lemma empty_result_lookup (corpus : list pyobj) (i : nat)
    (keywords : list string) :
  empty_result corpus !! i = Some keywords → keywords = [].
Proof.
  unfold empty_result. rewrite list_lookup_fmap.
  destruct (corpus !! i); simpl; congruence.
Qed.

Lemma three_term_vocabulary_distinct : NoDup (feature_names three_term_fit).
Proof.
  simpl.
  repeat (apply NoDup_cons;
          split; [rewrite ?elem_of_cons, elem_of_nil; intuition discriminate |]).
  apply NoDup_nil_2.
Qed.

(** C8, for a top_n that is not negative.  Whatever the corpus of
    strings and the fitted vectorizer (with a vocabulary of distinct
    terms), every keyword list returned has pairwise distinct terms and
    at most top_n of them, each with a strictly positive TF-IDF score in
    its document, in non-increasing order of that score. *)
Theorem extracted_keywords_invariant
    (fit_transform : list string → option tfidf) (docs : list string)
    (top_n : Z) :
  (0 ≤ top_n)%Z →
  (∀ fit, fit_transform docs = Some fit → NoDup (feature_names fit)) →
  ∀ (i : nat) (keywords : list string),
    extract_keywords_tfidf fit_transform (PyStr <$> docs) top_n !! i
    = Some keywords →
    NoDup keywords
    ∧ (Z.of_nat (length keywords) ≤ top_n)%Z
    ∧ ∀ fit row,
        fit_transform docs = Some fit → tfidf_matrix fit !! i = Some row →
        Forall (λ term, 0 < term_score (feature_names fit) row term) keywords
        ∧ StronglySorted
            (λ term later,
               term_score (feature_names fit) row later
               <= term_score (feature_names fit) row term)
            keywords.
Proof.
  intros Hn Hvocab i keywords.
  assert (keywords = [] →
          NoDup keywords
          ∧ (Z.of_nat (length keywords) ≤ top_n)%Z
          ∧ ∀ fit row,
              fit_transform docs = Some fit →
              tfidf_matrix fit !! i = Some row →
              Forall (λ term, 0 < term_score (feature_names fit) row term)
                keywords
              ∧ StronglySorted
                  (λ term later,
                     term_score (feature_names fit) row later
                     <= term_score (feature_names fit) row term)
                  keywords) as Hempty.
  { intros ->. split; [constructor |]. split; [simpl; lia |].
    intros fit row _ _. split; constructor. }
  unfold extract_keywords_tfidf. rewrite all_strings_of_strings.
  destruct (is_nil docs);
    [intros Hi%empty_result_lookup; by apply Hempty |].
  destruct (fit_transform docs) as [fit |] eqn:Hfit; simpl;
    [| intros Hi%empty_result_lookup; by apply Hempty].
  destruct (mapM _ (tfidf_matrix fit)) as [corpus_keywords |] eqn:Hrows;
    [| intros Hi%empty_result_lookup; by apply Hempty].
  intros Hi. apply mapM_Some in Hrows.
  destruct (Forall2_lookup_r _ _ _ _ _ Hrows Hi) as (row & Hrow & Hkw).
  destruct (doc_keywords_invariant _ _ _ _ (Hvocab fit eq_refl) Hkw)
    as (Hdistinct & Hlength & Hpositive & Hsorted).
  split; [exact Hdistinct |]. split; [by apply Hlength |].
  intros fit' row' Hfit' Hrow'. by simplify_eq.
Qed.

Lemma extracted_keywords_invariant_witness :
  NoDup ["django"; "api"]
  ∧ (Z.of_nat (length ["django"; "api"]) ≤ 2)%Z
  ∧ ∀ fit row,
      three_term_vectorizer [three_term_doc] = Some fit →
      tfidf_matrix fit !! 0%nat = Some row →
      Forall (λ term, 0 < term_score (feature_names fit) row term)
        ["django"; "api"]
      ∧ StronglySorted
          (λ term later,
             term_score (feature_names fit) row later
             <= term_score (feature_names fit) row term)
          ["django"; "api"].
Proof.
  apply (extracted_keywords_invariant three_term_vectorizer [three_term_doc]
           2 ltac:(lia)).
  - intros fit Hfit. vm_compute in Hfit. injection Hfit as <-.
    apply three_term_vocabulary_distinct.
  - vm_compute. reflexivity.
Defined.

(** C8 as stated fails for a negative top_n: the slice [[:-1]] keeps all
    columns but the last, so the list has two terms, more than -1. *)
Lemma negative_top_n_exceeds_bound :
  three_term_vectorizer [three_term_doc] = Some three_term_fit
  ∧ NoDup (feature_names three_term_fit)
  ∧ extract_keywords_tfidf three_term_vectorizer [PyStr three_term_doc] (-1)
    = [["django"; "api"]]
  ∧ ¬ (Z.of_nat (length ["django"; "api"]) ≤ -1)%Z.
Proof.
  split; [reflexivity |].
  split; [apply three_term_vocabulary_distinct |].
  split; [vm_compute; reflexivity |]. simpl. lia.
Qed.

End KeywordFacts.

(** ** backend/text_processor.py *)
Section TextFacts.

Import TextProcessor.

(** *** The stages written in the module *)




Lemma all_chars_join (p : ascii → bool) (words : list string) :
  p " "%char = true → Forall (λ w, all_chars p w = true) words →
  all_chars p (join " " words) = true.
Proof.
  intros Hblank. unfold join.
  induction 1 as [| word words Hword Hwords IH]; [reflexivity |].
  destruct words as [| next words]; [exact Hword |].
  change (String.concat " " (word :: next :: words))
    with (word +:+ String " " (String.concat " " (next :: words))).
  rewrite all_chars_app, Hword. cbn [all_chars andb].
  by rewrite Hblank, IH.
Qed.

Lemma all_chars_collapse (p : ascii → bool) (text : string) :
  p " "%char = true → all_chars p text = true →
  all_chars p (collapse_whitespace text) = true.
Proof.
  intros Hblank Htext. apply all_chars_join; [exact Hblank |].
  by apply all_chars_split_from.
Qed.

Lemma lower_ascii_not_upper (c : ascii) : not_upper (lower_ascii c) = true.
Proof. by destruct c as [[] [] [] [] [] [] [] []]. Qed.

Lemma lower_ascii_fixed (c : ascii) :
  not_upper c = true ↔ lower_ascii c = c.
Proof. destruct c as [[] [] [] [] [] [] [] []]; by split. Qed.

Lemma lower_ascii_punctuation (c : ascii) :
  is_punctuation (lower_ascii c) = is_punctuation c.
Proof. by destruct c as [[] [] [] [] [] [] [] []]. Qed.

Lemma lower_not_upper (s : string) : all_chars not_upper (lower s) = true.
Proof.
  induction s as [| c s IH]; [reflexivity |]. simpl.
  by rewrite lower_ascii_not_upper, IH.
Qed.

Lemma lower_fixed (s : string) : all_chars not_upper s = true ↔ lower s = s.
Proof.
  induction s as [| c s IH]; [done |]. simpl.
  rewrite andb_true_iff, lower_ascii_fixed, IH. split.
  - by intros [-> ->].
  - intros [= Hc Hs]. by rewrite Hc, Hs.
Qed.

Lemma lower_length (s : string) : String.length (lower s) = String.length s.
Proof. induction s as [| c s IH]; [reflexivity |]. simpl. by rewrite IH. Qed.

Lemma delete_chars_none (chars : ascii → bool) (s : string) :
  all_chars (λ c, negb (chars c)) (delete_chars chars s) = true.
Proof.
  induction s as [| c s IH]; [reflexivity |]. simpl.
  destruct (chars c) eqn:Hc; [exact IH |]. simpl. by rewrite Hc, IH.
Qed.

Lemma delete_chars_length (chars : ascii → bool) (s : string) :
  (String.length (delete_chars chars s) ≤ String.length s)%nat.
Proof.
  induction s as [| c s IH]; [done |]. simpl.
  destruct (chars c); simpl; lia.
Qed.

Lemma delete_chars_fixed (chars : ascii → bool) (s : string) :
  all_chars (λ c, negb (chars c)) s = true ↔ delete_chars chars s = s.
Proof.
  induction s as [| c s IH]; [done |]. simpl.
  destruct (chars c) eqn:Hc; simpl.
  - split; [done |]. intros Heq. exfalso.
    pose proof (delete_chars_length chars s) as Hlen.
    rewrite Heq in Hlen. simpl in Hlen. lia.
  - rewrite IH. split; [by intros -> | by intros [= ->]].
Qed.

Lemma delete_chars_keeps (p chars : ascii → bool) (s : string) :
  all_chars p s = true → all_chars p (delete_chars chars s) = true.
Proof.
  induction s as [| c s IH]; [done |]. simpl.
  intros [Hc Hs]%andb_true_iff. destruct (chars c); [by apply IH |].
  simpl. by rewrite Hc, IH.
Qed.







End TextFacts.

(** ** The repository's tests, run on the model *)
Section RepositoryTests.

Import Scorer FeedbackGenerator TextProcessor KeywordExtractor.

(** tests/test_scorer.py *)
Example test_keyword_match_identical :
  calculate_keyword_match_score ["python"; "django"; "api"; "web development"]
    ["python"; "django"; "api"; "web development"] == 1.
Proof. vm_compute. reflexivity. Qed.

Example test_keyword_match_no_overlap :
  calculate_keyword_match_score ["python"; "django"; "api"]
    ["java"; "spring"; "rest"] == 0.
Proof. vm_compute. reflexivity. Qed.

Example test_keyword_match_partial :
  calculate_keyword_match_score ["python"; "django"; "api"; "web development"]
    ["python"; "flask"; "api"; "microservices"] == 2 # 6.
Proof. vm_compute. reflexivity. Qed.

Example test_keyword_match_empty :
  calculate_keyword_match_score [] [] = 0
  ∧ calculate_keyword_match_score ["python"] [] = 0
  ∧ calculate_keyword_match_score [] ["python"] = 0.
Proof. repeat split. Qed.

Example test_overall_score_default_weights :
  outcome_eq
    (calculate_overall_score ["python"; "django"; "api"]
       ["python"; "flask"; "api"] (8 # 10)
       default_keyword_weight default_semantic_weight)
    (Returns 68).
Proof. vm_compute. reflexivity. Qed.

Example test_overall_score_custom_weights :
  outcome_eq
    (calculate_overall_score ["python"; "django"; "api"]
       ["python"; "flask"; "api"] (8 # 10) (7 # 10) (3 # 10))
    (Returns 59).
Proof. vm_compute. reflexivity. Qed.

Example test_overall_score_empty_keywords :
  outcome_eq
    (calculate_overall_score [] ["python"; "flask"; "api"] (8 # 10)
       default_keyword_weight default_semantic_weight)
    (Returns 48).
Proof. vm_compute. reflexivity. Qed.

Example test_overall_score_clamped :
  outcome_eq
    (calculate_overall_score ["python"; "django"; "api"]
       ["python"; "flask"; "api"] (15 # 10)
       default_keyword_weight default_semantic_weight)
    (Returns 80).
Proof. vm_compute. reflexivity. Qed.

(** tests/test_feedback_generator.py *)
Example test_generate_feedback_high_score :
  let feedback :=
    generate_feedback
      ["python"; "django"; "api"; "web development"; "machine learning"]
      ["python"; "django"; "api"; "restful services"; "machine learning"]
      (85 # 100) 88 default_top_n_missing_keywords in
  feedback !! "overall_summary" = Some [msg_excellent 88]
  ∧ msg_excellent 88
    = "Excellent match! Your resume aligns very well with the job description (Overall Score: 88/100)."
  ∧ head (item "strengths" feedback) = Some msg_strong_alignment.
Proof. vm_compute. repeat split. Qed.

Example test_generate_feedback_medium_score :
  let feedback :=
    generate_feedback ["java"; "spring boot"; "sql"; "backend development"]
      ["java"; "spring"; "microservices"; "api design"; "cloud";
       "kubernetes"]
      (60 # 100) 55 default_top_n_missing_keywords in
  feedback !! "overall_summary" = Some [msg_good_potential 55]
  ∧ length (item "missing_keywords_suggestions" feedback) = 1%nat
  ∧ missing_keywords_of ["java"; "spring boot"; "sql"; "backend development"]
      ["java"; "spring"; "microservices"; "api design"; "cloud";
       "kubernetes"]
    ≡ₚ ["spring"; "microservices"; "api design"; "cloud"; "kubernetes"].
Proof.
  split; [vm_compute; reflexivity |]. split; [vm_compute; reflexivity |].
  apply bool_decide_unpack with (dec := Permutation_dec _ _).
  vm_compute. exact I.
Qed.

Example test_generate_feedback_low_score :
  let feedback :=
    generate_feedback ["marketing"; "social media"; "content creation"]
      ["software engineer"; "c++"; "systems programming"; "algorithms"]
      (20 # 100) 15 default_top_n_missing_keywords in
  feedback !! "overall_summary" = Some [msg_needs_improvement 15]
  ∧ feedback !! "areas_for_improvement" = Some [msg_low_semantic]
  ∧ feedback !! "strengths" = None.
Proof. vm_compute. repeat split. Qed.

(** tests/test_text_processor.py *)
Example test_lowercase_text :
  lowercase_text (PyStr "Hello WORLD! This is a TEST.")
  = "hello world! this is a test."
  ∧ lowercase_text (PyInt 123) = EmptyString.
Proof. repeat split. Qed.

Example test_remove_punctuation :
  remove_punctuation (PyStr "Hello, world! This is a test: with punctuation.")
  = "Hello world This is a test with punctuation"
  ∧ remove_punctuation (PyInt 123) = EmptyString.
Proof. repeat split. Qed.

Example test_preprocess_text_non_string :
  preprocess_text blank_tokenizer stop_words_excerpt lemmatizer_excerpt
    (PyInt 123) = EmptyString
  ∧ preprocess_text blank_tokenizer stop_words_excerpt lemmatizer_excerpt
      (PyStr EmptyString) = EmptyString.
Proof. repeat split. Qed.

(** tests/test_keyword_extractor.py *)
Example test_extract_keywords_edge_cases :
  extract_keywords_tfidf three_term_vectorizer [] default_top_n = []
  ∧ extract_keywords_tfidf three_term_vectorizer [PyStr EmptyString]
      default_top_n = [[]]
  ∧ extract_keywords_tfidf three_term_vectorizer [PyInt 123] default_top_n
    = [[]].
Proof. repeat split. Qed.

Example test_extract_keywords_top_n :
  extract_keywords_tfidf three_term_vectorizer [PyStr three_term_doc] 2
  = [["django"; "api"]].
Proof. vm_compute. reflexivity. Qed.

(** Section 8 of the specification: similarity("", "") and
    similarity("x", ""). *)
Example test_similarity_blank_inputs :
  SemanticAnalyzer.calculate_semantic_similarity
    (Some SemanticAnalyzer.opposite_encoder) (PyStr EmptyString)
    (PyStr EmptyString) = 1%R
  ∧ SemanticAnalyzer.calculate_semantic_similarity
      (Some SemanticAnalyzer.opposite_encoder) (PyStr "x")
      (PyStr EmptyString) = 0%R.
Proof. split; reflexivity. Qed.

End RepositoryTests.

(** * Further properties *)

(** ** backend/scorer.py: the keyword match score *)
Section KeywordMatchFacts.

Import Scorer.

Lemma keyword_set_elem (keywords : list string) (k : string) :
  k ∈ keyword_set keywords ↔ k ∈ keywords.
Proof. unfold keyword_set. apply elem_of_list_to_set. Qed.

Lemma keyword_set_ext (keywords keywords' : list string) :
  (∀ k, k ∈ keywords ↔ k ∈ keywords') →
  keyword_set keywords = keyword_set keywords'.
Proof.
  intros Hsame. apply set_eq. intros k. by rewrite !keyword_set_elem.
Qed.

(** The score of two non-empty lists is the ratio of the two sizes. *)
Lemma keyword_match_score_ratio (r j : string) (rs js : list string) :
  calculate_keyword_match_score (r :: rs) (j :: js)
  = inject_Z (Z.of_nat (size (keyword_set (r :: rs) ∩ keyword_set (j :: js))))
    / inject_Z
        (Z.of_nat (size (keyword_set (r :: rs) ∪ keyword_set (j :: js))))
  ∧ (0 < size (keyword_set (r :: rs) ∪ keyword_set (j :: js)))%nat.
Proof.
  assert (0 < size (keyword_set (r :: rs) ∪ keyword_set (j :: js)))%nat
    as Hpos.
  { apply Nat.neq_0_lt_0. apply size_non_empty_iff. intros Hempty.
    assert (r ∈ keyword_set (r :: rs) ∪ keyword_set (j :: js)) as Hr.
    { apply elem_of_union. left. apply keyword_set_elem, list_elem_of_here. }
    rewrite Hempty in Hr. by apply not_elem_of_empty in Hr. }
  split; [| exact Hpos]. unfold calculate_keyword_match_score. cbv zeta.
  destruct (Nat.eqb_spec
              (size (keyword_set (r :: rs) ∪ keyword_set (j :: js))) 0)
    as [Hzero | _]; [| reflexivity].
  rewrite Hzero in Hpos. lia.
Qed.

Lemma ratio_eq_one (i u : nat) :
  (0 < u)%nat →
  inject_Z (Z.of_nat i) / inject_Z (Z.of_nat u) == 1 ↔ i = u.
Proof.
  intros Hu.
  assert (¬ inject_Z (Z.of_nat u) == 0) as Hne.
  { replace 0 with (inject_Z 0) by reflexivity. rewrite inject_Z_injective.
    lia. }
  split.
  - intros Hone.
    assert (inject_Z (Z.of_nat i) == inject_Z (Z.of_nat u)) as Heq.
    { rewrite <- (Qmult_1_l (inject_Z (Z.of_nat u))), <- Hone. field.
      exact Hne. }
    apply (proj1 (inject_Z_injective _ _)) in Heq. lia.
  - intros ->. field. exact Hne.
Qed.

Lemma ratio_eq_zero (i u : nat) :
  (0 < u)%nat →
  inject_Z (Z.of_nat i) / inject_Z (Z.of_nat u) == 0 ↔ i = 0%nat.
Proof.
  intros Hu.
  assert (¬ inject_Z (Z.of_nat u) == 0) as Hne.
  { replace 0 with (inject_Z 0) by reflexivity. rewrite inject_Z_injective.
    lia. }
  split.
  - intros Hzero.
    assert (inject_Z (Z.of_nat i) == inject_Z 0) as Heq.
    { transitivity
        (inject_Z (Z.of_nat i) / inject_Z (Z.of_nat u)
         * inject_Z (Z.of_nat u)); [field; exact Hne |].
      rewrite Hzero. ring. }
    apply (proj1 (inject_Z_injective _ _)) in Heq. lia.
  - intros ->. simpl. field. exact Hne.
Qed.

(** The keyword match score does not depend on which list is the
    resume's. *)
Theorem keyword_match_score_symmetric
    (resume_keywords jd_keywords : list string) :
  calculate_keyword_match_score resume_keywords jd_keywords
  = calculate_keyword_match_score jd_keywords resume_keywords.
Proof.
  unfold calculate_keyword_match_score.
  destruct resume_keywords as [| r rs], jd_keywords as [| j js];
    try reflexivity.
  assert (keyword_set (r :: rs) ∩ keyword_set (j :: js)
          = keyword_set (j :: js) ∩ keyword_set (r :: rs)) as ->
    by (apply set_eq; intros k; rewrite !elem_of_intersection; tauto).
  assert (keyword_set (r :: rs) ∪ keyword_set (j :: js)
          = keyword_set (j :: js) ∪ keyword_set (r :: rs)) as ->
    by (apply set_eq; intros k; rewrite !elem_of_union; tauto).
  reflexivity.
Qed.

(** The score is 1 exactly when the resume list is not empty and the two
    lists hold the same keywords (in any order, with any repetition). *)
Theorem keyword_match_score_one_iff
    (resume_keywords jd_keywords : list string) :
  calculate_keyword_match_score resume_keywords jd_keywords == 1
  ↔ resume_keywords ≠ [] ∧ ∀ k, k ∈ resume_keywords ↔ k ∈ jd_keywords.
Proof.
  destruct resume_keywords as [| r rs].
  { simpl. split; [intros Habs; discriminate Habs | intros [Hne _]; done]. }
  destruct jd_keywords as [| j js].
  { simpl. split; [intros Habs; discriminate Habs |].
    intros [_ Hsame]. exfalso.
    eapply not_elem_of_nil, (Hsame r), list_elem_of_here. }
  destruct (keyword_match_score_ratio r j rs js) as [-> Hpos].
  rewrite (ratio_eq_one _ _ Hpos).
  set (A := keyword_set (r :: rs)). set (B := keyword_set (j :: js)).
  split.
  - intros Hsize. split; [done |].
    assert (A ∩ B = A ∪ B) as Heq.
    { apply set_subseteq_size_eq; [| lia].
      intros x [Hx _]%elem_of_intersection. apply elem_of_union. by left. }
    intros k. rewrite <- !keyword_set_elem. fold A B. split; intros Hk.
    + assert (k ∈ A ∩ B) as Hin
        by (rewrite Heq; apply elem_of_union; by left).
      by apply elem_of_intersection in Hin as [_ ?].
    + assert (k ∈ A ∩ B) as Hin
        by (rewrite Heq; apply elem_of_union; by right).
      by apply elem_of_intersection in Hin as [? _].
  - intros [_ Hsame]. subst A B.
    rewrite (keyword_set_ext _ _ Hsame).
    assert (keyword_set (j :: js) ∩ keyword_set (j :: js)
            = keyword_set (j :: js) ∪ keyword_set (j :: js)) as ->
      by (apply set_eq; intros k;
          rewrite elem_of_intersection, elem_of_union; tauto).
    reflexivity.
Qed.

(** The score is 0 exactly when no keyword is in both lists. *)
Theorem keyword_match_score_zero_iff
    (resume_keywords jd_keywords : list string) :
  calculate_keyword_match_score resume_keywords jd_keywords == 0
  ↔ ∀ k, ¬ (k ∈ resume_keywords ∧ k ∈ jd_keywords).
Proof.
  destruct resume_keywords as [| r rs].
  { simpl. split; [| reflexivity]. intros _ k [Hk _].
    by apply not_elem_of_nil in Hk. }
  destruct jd_keywords as [| j js].
  { simpl. split; [| reflexivity]. intros _ k [_ Hk].
    by apply not_elem_of_nil in Hk. }
  destruct (keyword_match_score_ratio r j rs js) as [-> Hpos].
  rewrite (ratio_eq_zero _ _ Hpos), size_empty_iff.
  split.
  - intros Hempty k [Hr Hj].
    apply (not_elem_of_empty (C := gset string) k). rewrite <- Hempty.
    apply elem_of_intersection. by rewrite !keyword_set_elem.
  - intros Hnone. apply set_equiv. intros k.
    rewrite elem_of_intersection, !keyword_set_elem.
    split; [intros Hk; by apply Hnone in Hk |].
    intros Hk. by apply not_elem_of_empty in Hk.
Qed.

(** Only the sets of keywords count: lists with the same members, in any
    order and with any repetition, score the same. *)
Theorem keyword_match_score_same_members
    (resume_keywords resume_keywords' jd_keywords jd_keywords' : list string) :
  (∀ k, k ∈ resume_keywords ↔ k ∈ resume_keywords') →
  (∀ k, k ∈ jd_keywords ↔ k ∈ jd_keywords') →
  calculate_keyword_match_score resume_keywords jd_keywords
  = calculate_keyword_match_score resume_keywords' jd_keywords'.
Proof.
  intros Hr Hj. unfold calculate_keyword_match_score.
  rewrite (keyword_set_ext _ _ Hr), (keyword_set_ext _ _ Hj).
  destruct resume_keywords as [| r rs], resume_keywords' as [| r' rs'];
    try (exfalso; eapply not_elem_of_nil, Hr, list_elem_of_here);
    [reflexivity |].
  destruct jd_keywords as [| j js], jd_keywords' as [| j' js'];
    try (exfalso; eapply not_elem_of_nil, Hj, list_elem_of_here);
    reflexivity.
Qed.

Lemma keyword_match_score_same_members_witness :
  calculate_keyword_match_score ["python"; "api"; "python"] ["api"; "sql"]
  = calculate_keyword_match_score ["api"; "python"] ["sql"; "api"; "sql"].
Proof.
  apply keyword_match_score_same_members; intros k;
    rewrite !elem_of_cons, !elem_of_nil; tauto.
Defined.

End KeywordMatchFacts.

(** ** backend/scorer.py: the overall score *)
Section OverallScoreFacts.

Import Scorer.

Lemma combine_monotone_in_match (r1 j1 r2 j2 : list string) (s a b : Q) :
  0 <= a →
  calculate_keyword_match_score r1 j1 <= calculate_keyword_match_score r2 j2 →
  combine r1 j1 s a b <= combine r2 j2 s a b.
Proof.
  intros Ha Hk. unfold combine.
  set (k1 := calculate_keyword_match_score r1 j1) in *.
  set (k2 := calculate_keyword_match_score r2 j2) in *.
  set (c := py_max 0 (py_min 1 s)). nra.
Qed.

(** A call either raises, and then a weight is outside [0, 1], or
    returns, and then both weights are in [0, 1] and the score is not
    negative: whatever the semantic score and the keywords.  (An upper
    end of 100 holds without rounding only.) *)
Theorem overall_score_raises_or_not_negative
    (resume_keywords jd_keywords : list string) (s kw sw : Q) :
  match calculate_overall_score resume_keywords jd_keywords s kw sw with
  | ValueError _ => ¬ (0 <= kw <= 1 ∧ 0 <= sw <= 1)
  | Returns v => (0 <= kw <= 1 ∧ 0 <= sw <= 1) ∧ 0 <= v
  end.
Proof.
  destruct (weights_in_range kw sw) eqn:Hrange.
  - apply weights_in_range_iff in Hrange as Hin. destruct Hin as [Hkw Hsw].
    case_Qlt 0 (kw + sw).
    + destruct (overall_score_normalized resume_keywords jd_keywords s kw sw)
        as (v & -> & Hv); [assumption.. |].
      split; [tauto |]. rewrite Hv.
      apply (combine_range resume_keywords jd_keywords s).
      * apply Qle_shift_div_l; lra.
      * apply Qle_shift_div_l; lra.
      * field. lra.
    + rewrite overall_score_zero_weights by (assumption || lra).
      split; [tauto | lra].
  - unfold calculate_overall_score. rewrite Hrange. simpl.
    intros Hin%weights_in_range_iff. congruence.
Qed.

(** With the semantic score and the weights fixed, a better keyword match
    never lowers the overall score. *)
Theorem overall_score_monotone_in_keyword_match
    (r1 j1 r2 j2 : list string) (s kw sw : Q) :
  0 <= kw <= 1 → 0 <= sw <= 1 →
  calculate_keyword_match_score r1 j1 <= calculate_keyword_match_score r2 j2 →
  ∃ v1 v2,
    calculate_overall_score r1 j1 s kw sw = Returns v1
    ∧ calculate_overall_score r2 j2 s kw sw = Returns v2
    ∧ v1 <= v2.
Proof.
  intros Hkw Hsw Hk.
  case_Qlt 0 (kw + sw).
  - destruct (overall_score_normalized r1 j1 s kw sw) as (v1 & Hr1 & Hv1);
      [assumption.. |].
    destruct (overall_score_normalized r2 j2 s kw sw) as (v2 & Hr2 & Hv2);
      [assumption.. |].
    exists v1, v2. split; [exact Hr1 |]. split; [exact Hr2 |].
    rewrite Hv1, Hv2. apply combine_monotone_in_match; [| exact Hk].
    apply Qle_shift_div_l; lra.
  - exists 0, 0.
    rewrite !overall_score_zero_weights by (assumption || lra).
    repeat split; lra.
Qed.

Lemma overall_score_monotone_in_keyword_match_witness :
  ∃ v1 v2,
    calculate_overall_score ["python"; "django"] ["java"; "spring"]
      (6 # 10) (4 # 10) (6 # 10) = Returns v1
    ∧ calculate_overall_score ["python"; "django"] ["python"; "flask"]
        (6 # 10) (4 # 10) (6 # 10) = Returns v2
    ∧ v1 <= v2.
Proof.
  apply overall_score_monotone_in_keyword_match;
    vm_compute; try split; discriminate.
Defined.

End OverallScoreFacts.

(** ** backend/feedback_generator.py: the shape of a report *)
Section ReportFacts.

Import FeedbackGenerator.

(** Rewrites each comparison the context decides to its truth value. *)
Ltac decide_comparisons :=
  unfold Qlt_bool;
  repeat match goal with
         | |- context [Qle_bool ?a ?b] =>
             first [ rewrite (proj2 (Qle_bool_iff a b)) by lra
                   | rewrite (proj2 (Qle_bool_false a b)) by lra ]
         end;
  cbn [negb andb orb].

(** What [consolidate] leaves under the three keys it may pop. *)
Lemma consolidate_lookup_suggestions (s g t a : list string) :
  consolidate (categories s g t a) !! "missing_keywords_suggestions"
  = if is_nil g then None else Some g.
Proof. destruct g, t, a; reflexivity. Qed.

Lemma consolidate_lookup_strengths (s g t a : list string) :
  consolidate (categories s g t a) !! "strengths"
  = if is_nil t then None else Some t.
Proof. destruct g, t, a; reflexivity. Qed.

Lemma consolidate_lookup_improvements (s g t a : list string) :
  consolidate (categories s g t a) !! "areas_for_improvement"
  = if is_nil a then None else Some a.
Proof. destruct g, t, a; reflexivity. Qed.

Lemma lowered_set_elem (keywords : list string) (k : string) :
  k ∈ lowered_set keywords ↔ ∃ k', k' ∈ keywords ∧ lower k' = k.
Proof.
  unfold lowered_set. rewrite elem_of_list_to_set, list_elem_of_fmap.
  split; intros (k' & H1 & H2); exists k'; by split.
Qed.

(** No keyword is missing when every keyword of the job description is,
    up to letter case, one of the resume's. *)
Lemma missing_keywords_nil (resume_keywords jd_keywords : list string) :
  missing_keywords_of resume_keywords jd_keywords = []
  ↔ ∀ k, k ∈ jd_keywords →
         ∃ k', k' ∈ resume_keywords ∧ lower k' = lower k.
Proof.
  unfold missing_keywords_of. rewrite elements_empty_iff. split.
  - intros Hempty k Hk. apply lowered_set_elem.
    destruct (decide (lower k ∈ lowered_set resume_keywords)) as [| Hnot];
      [done |].
    exfalso. apply (not_elem_of_empty (C := gset string) (lower k)).
    rewrite <- Hempty. apply elem_of_difference. split; [| exact Hnot].
    apply lowered_set_elem. by exists k.
  - intros Hall. apply set_equiv. intros k.
    rewrite elem_of_difference, !lowered_set_elem.
    split; [| intros Hk; by apply not_elem_of_empty in Hk].
    intros [(k' & Hk' & <-) Hnot]. exfalso. apply Hnot.
    destruct (Hall k' Hk') as (k'' & Hk'' & Heq). by exists k''.
Qed.

(** A keyword is shared when some keyword of the resume and some keyword
    of the job description agree up to letter case. *)
Lemma common_keywords_nil (resume_keywords jd_keywords : list string) :
  common_keywords_of resume_keywords jd_keywords ≠ []
  ↔ ∃ k k', k ∈ resume_keywords ∧ k' ∈ jd_keywords ∧ lower k = lower k'.
Proof.
  unfold common_keywords_of. rewrite elements_empty_iff. split.
  - intros Hne.
    destruct (set_choose_or_empty
                (lowered_set resume_keywords ∩ lowered_set jd_keywords))
      as [[x Hx] | Hempty]; [| done].
    apply elem_of_intersection in Hx as [Hr Hj].
    apply lowered_set_elem in Hr as (k & Hk & Hkx).
    apply lowered_set_elem in Hj as (k' & Hk' & Hkx').
    exists k, k'. repeat split; congruence.
  - intros (k & k' & Hk & Hk' & Heq) Hempty.
    apply (not_elem_of_empty (C := gset string) (lower k)).
    rewrite <- Hempty. apply elem_of_intersection.
    split; apply lowered_set_elem; [by exists k | by exists k'].
Qed.

Lemma lowered_set_case (keywords keywords' : list string) :
  lower <$> keywords = lower <$> keywords' →
  lowered_set keywords = lowered_set keywords'.
Proof. unfold lowered_set. by intros ->. Qed.

(** Keywords are compared without regard to letter case: keyword lists
    that agree once lowercased give the same report. *)
Theorem generate_feedback_ignores_case
    (resume_keywords resume_keywords' jd_keywords jd_keywords' : list string)
    (s o : Q) (n : Z) :
  lower <$> resume_keywords = lower <$> resume_keywords' →
  lower <$> jd_keywords = lower <$> jd_keywords' →
  generate_feedback resume_keywords jd_keywords s o n
  = generate_feedback resume_keywords' jd_keywords' s o n.
Proof.
  intros Hr Hj. unfold generate_feedback, missing_keywords_of,
    common_keywords_of.
  by rewrite (lowered_set_case _ _ Hr), (lowered_set_case _ _ Hj).
Qed.

Lemma generate_feedback_ignores_case_witness :
  generate_feedback ["Python"; "SQL"] ["python"; "Docker"] (7 # 10) 65 5
  = generate_feedback ["python"; "sql"] ["PYTHON"; "docker"] (7 # 10) 65 5.
Proof.
  apply generate_feedback_ignores_case; reflexivity.
Defined.

(** The report holds no key besides the four category names. *)
Theorem report_keys (resume_keywords jd_keywords : list string) (s o : Q)
    (n : Z) (key : string) :
  is_Some (generate_feedback resume_keywords jd_keywords s o n !! key) →
  key ∈ ["overall_summary"; "missing_keywords_suggestions"; "strengths";
         "areas_for_improvement"].
Proof.
  rewrite generate_feedback_categories. unfold consolidate.
  intros [msgs Hkey].
  apply pop_if_empty_lookup in Hkey as [Hkey _].
  apply pop_if_empty_lookup in Hkey as [Hkey _].
  apply pop_if_empty_lookup in Hkey as [Hkey _].
  apply categories_lookup in Hkey.
  rewrite !elem_of_cons. tauto.
Qed.

Lemma report_keys_witness :
  "strengths"
  ∈ ["overall_summary"; "missing_keywords_suggestions"; "strengths";
     "areas_for_improvement"].
Proof.
  apply (report_keys ["python"] ["python"] (8 # 10) 80 5).
  vm_compute. eexists. reflexivity.
Defined.

(** For ASCII keywords (where [lower] is all of [str.lower]): the
    missing-keyword category is absent exactly when every keyword of the
    job description is, up to letter case, a keyword of the resume; when
    present it holds the suggestion, followed by the count of the
    keywords left out exactly when more than top_n are missing. *)
Theorem missing_keyword_suggestions
    (resume_keywords jd_keywords : list string) (s o : Q) (n : Z) :
  Forall (λ k, all_chars is_ascii k = true) (resume_keywords ++ jd_keywords) →
  let feedback := generate_feedback resume_keywords jd_keywords s o n in
  let missing := missing_keywords_of resume_keywords jd_keywords in
  (feedback !! "missing_keywords_suggestions" = None
   ↔ ∀ k, k ∈ jd_keywords →
          ∃ k', k' ∈ resume_keywords ∧ lower k' = lower k)
  ∧ (feedback !! "missing_keywords_suggestions"
     = Some [msg_missing missing n]
     ↔ missing ≠ [] ∧ (Z.of_nat (length missing) ≤ n)%Z)
  ∧ (feedback !! "missing_keywords_suggestions"
     = Some [msg_missing missing n; msg_more_missing missing n]
     ↔ missing ≠ [] ∧ (n < Z.of_nat (length missing))%Z).
Proof.
  intros _ feedback missing. subst feedback.
  rewrite generate_feedback_categories, consolidate_lookup_suggestions.
  fold missing. rewrite <- missing_keywords_nil. fold missing.
  unfold suggestions_for.
  destruct missing as [| m ms] eqn:Hm; simpl is_nil; cbv iota.
  { repeat split; try done; intros [? _]; done. }
  destruct (Z.ltb_spec n (Z.of_nat (length (m :: ms)))) as [Hlt | Hge];
    simpl is_nil; cbv iota.
  - repeat split; try done; try (intros [_ ?]; lia);
      try (intros [= ?]); try lia.
  - repeat split; try done; try (intros [_ ?]; lia);
      try (intros [= ?]); try lia.
Qed.

Lemma missing_keyword_suggestions_witness :
  generate_feedback ["Python"; "SQL"] ["python"; "sql"] (7 # 10) 80 5
    !! "missing_keywords_suggestions" = None.
Proof.
  apply (missing_keyword_suggestions ["Python"; "SQL"] ["python"; "sql"]
           (7 # 10) 80 5); [by repeat constructor |].
  intros k Hk. rewrite !elem_of_cons, elem_of_nil in Hk.
  destruct Hk as [-> | [-> | []]].
  - exists "Python". split; [apply list_elem_of_here | reflexivity].
  - exists "SQL". split; [| reflexivity].
    apply list_elem_of_further, list_elem_of_here.
Defined.

(** A report is never a bare summary: from a score of 60 up it has
    strengths, under 50 it has areas for improvement, and in between it
    has one of the two. *)
Theorem report_says_something
    (resume_keywords jd_keywords : list string) (s o : Q) (n : Z) :
  let feedback := generate_feedback resume_keywords jd_keywords s o n in
  (60 <= o → is_Some (feedback !! "strengths"))
  ∧ (o < 50 → is_Some (feedback !! "areas_for_improvement"))
  ∧ (is_Some (feedback !! "strengths")
     ∨ is_Some (feedback !! "areas_for_improvement")).
Proof.
  intros feedback. subst feedback.
  rewrite generate_feedback_categories, consolidate_lookup_strengths,
    consolidate_lookup_improvements.
  assert (60 <= o →
          is_nil (strengths_for resume_keywords jd_keywords s o n) = false)
    as Hstrengths.
  { intros Ho. unfold strengths_for.
    match goal with
    | |- is_nil (?e ++ generic_strength ?e o) = false =>
        destruct (generic_strength_cases e o) as [(-> & _ & ->) | [Hno ->]]
    end; [reflexivity |].
    rewrite app_nil_r. apply is_nil_false. tauto. }
  assert (o < 60 →
          is_nil (improvements_for resume_keywords jd_keywords s o) = false
          ∨ is_nil (strengths_for resume_keywords jd_keywords s o n) = false)
    as Hbelow.
  { intros Ho. unfold improvements_for, strengths_for, band_improvements,
      band_strengths.
    decide_comparisons. case_Qle 50 o; [| left].
    - case_Qle (60 # 100) s; [right; reflexivity | left; reflexivity].
    - unfold Qlt_bool. by destruct (negb _). }
  assert (o < 50 →
          is_nil (improvements_for resume_keywords jd_keywords s o) = false)
    as Himprovements.
  { intros Ho. unfold improvements_for, band_improvements.
    decide_comparisons. unfold Qlt_bool. by destruct (negb _). }
  split; [| split].
  - intros Ho. rewrite (Hstrengths Ho). by eexists.
  - intros Ho. rewrite (Himprovements Ho). by eexists.
  - case_Qle 60 o.
    + left. rewrite Hstrengths by done. by eexists.
    + destruct (Hbelow Hcmp) as [-> | ->]; [right | left]; by eexists.
Qed.

Lemma report_says_something_witness :
  is_Some
    (generate_feedback ["python"] ["java"] (3 # 10) 62 5 !! "strengths")
  ∧ is_Some
      (generate_feedback ["python"] ["java"] (3 # 10) 20 5
         !! "areas_for_improvement").
Proof.
  split.
  - apply (report_says_something ["python"] ["java"] (3 # 10) 62 5).
    vm_compute. discriminate.
  - apply (report_says_something ["python"] ["java"] (3 # 10) 20 5).
    reflexivity.
Defined.

(** A report is short: one summary, at most two suggestions, at most
    three strengths and at most two areas for improvement. *)
Theorem report_size (resume_keywords jd_keywords : list string) (s o : Q)
    (n : Z) :
  let feedback := generate_feedback resume_keywords jd_keywords s o n in
  length (item "overall_summary" feedback) = 1%nat
  ∧ (length (item "missing_keywords_suggestions" feedback) ≤ 2)%nat
  ∧ (length (item "strengths" feedback) ≤ 3)%nat
  ∧ (length (item "areas_for_improvement" feedback) ≤ 2)%nat.
Proof.
  intros feedback. subst feedback.
  rewrite generate_feedback_categories, !consolidate_item.
  rewrite item_strengths, item_suggestions, item_improvements.
  split; [reflexivity |].
  unfold strengths_for.
  match goal with
  | |- context [generic_strength ?e o] =>
      destruct (generic_strength_cases e o) as [(-> & _ & ->) | [_ ->]]
  end;
    unfold suggestions_for, improvements_for, band_strengths,
      band_improvements, common_strength, coverage_strength, review_note;
    repeat match goal with
           | |- context [if ?b then _ else _] => destruct b
           end; simpl; lia.
Qed.

Lemma coverage_elem_iff (resume_keywords jd_keywords : list string) (s o : Q)
    (n : Z) :
  msg_coverage ∈ strengths_for resume_keywords jd_keywords s o n
  ↔ missing_keywords_of resume_keywords jd_keywords = [] ∧ 70 <= o.
Proof.
  unfold strengths_for. rewrite !elem_of_app.
  destruct (coverage_strength_cases
              (missing_keywords_of resume_keywords jd_keywords) o)
    as [(Hm & Ho & Hc) | [Hno Hc]]; rewrite !Hc.
  - split; [tauto |]. intros _. left. right. right.
    apply list_elem_of_here.
  - split; [| tauto].
    intros [[Hin%band_strengths_elem | [Hin%common_strength_elem | Hin]]
           | Hin]; exfalso.
    + destruct Hin as [? | [? | ?]]; discriminate.
    + unfold msg_common in Hin. cbv [String.append] in Hin. discriminate.
    + by apply elem_of_nil in Hin.
    + match type of Hin with
      | _ ∈ generic_strength ?e _ =>
          destruct (generic_strength_cases e o) as [(_ & _ & Hg) | [_ Hg]]
      end; rewrite Hg in Hin;
        [apply list_elem_of_singleton in Hin; discriminate
        | by apply elem_of_nil in Hin].
Qed.

Lemma review_elem_iff (resume_keywords jd_keywords : list string) (s o : Q) :
  msg_review_jd ∈ improvements_for resume_keywords jd_keywords s o
  ↔ missing_keywords_of resume_keywords jd_keywords = [] ∧ o < 70.
Proof.
  unfold improvements_for. rewrite elem_of_app.
  pose proof (review_not_band s o) as Hband.
  destruct (review_note_cases
              (missing_keywords_of resume_keywords jd_keywords) o)
    as [(Hm & Ho & ->) | [Hno ->]];
    rewrite ?list_elem_of_singleton, ?elem_of_nil; tauto.
Qed.

Lemma common_elem_iff (resume_keywords jd_keywords : list string) (s o : Q)
    (n : Z) :
  msg_common (common_keywords_of resume_keywords jd_keywords) n
  ∈ strengths_for resume_keywords jd_keywords s o n
  ↔ common_keywords_of resume_keywords jd_keywords ≠ [].
Proof.
  unfold strengths_for. rewrite !elem_of_app.
  set (common := common_keywords_of resume_keywords jd_keywords).
  split.
  - intros [[Hin%band_strengths_elem | [Hin | Hin]] | Hin].
    + exfalso. unfold msg_common in Hin. cbv [String.append] in Hin.
      destruct Hin as [? | [? | ?]]; discriminate.
    + unfold common_strength in Hin. destruct common; [| done].
      by apply elem_of_nil in Hin.
    + exfalso.
      destruct (coverage_strength_cases
                  (missing_keywords_of resume_keywords jd_keywords) o)
        as [(_ & _ & Hc) | [_ Hc]]; rewrite Hc in Hin;
        [apply list_elem_of_singleton in Hin | by apply elem_of_nil in Hin].
      unfold msg_common in Hin. cbv [String.append] in Hin. discriminate.
    + exfalso.
      match type of Hin with
      | _ ∈ generic_strength ?e _ =>
          destruct (generic_strength_cases e o) as [(_ & _ & Hg) | [_ Hg]]
      end; rewrite Hg in Hin;
        [apply list_elem_of_singleton in Hin | by apply elem_of_nil in Hin].
      unfold msg_common in Hin. cbv [String.append] in Hin. discriminate.
  - intros Hne. left. right. left. unfold common_strength.
    destruct common; [done |]. apply list_elem_of_here.
Qed.

(** For ASCII keywords (where [lower] is all of [str.lower]): the
    shared-keyword strength is in the report exactly when some keyword of
    the resume and some keyword of the job description agree up to letter
    case. *)
Theorem shared_keyword_strength
    (resume_keywords jd_keywords : list string) (s o : Q) (n : Z) :
  Forall (λ k, all_chars is_ascii k = true) (resume_keywords ++ jd_keywords) →
  msg_common (common_keywords_of resume_keywords jd_keywords) n
  ∈ item "strengths" (generate_feedback resume_keywords jd_keywords s o n)
  ↔ ∃ k k', k ∈ resume_keywords ∧ k' ∈ jd_keywords ∧ lower k = lower k'.
Proof.
  intros _.
  by rewrite feedback_strengths, common_elem_iff, common_keywords_nil.
Qed.

Lemma shared_keyword_strength_witness :
  msg_common (common_keywords_of ["Python"; "SQL"] ["python"; "docker"]) 5
  ∈ item "strengths"
      (generate_feedback ["Python"; "SQL"] ["python"; "docker"] (5 # 10) 40 5).
Proof.
  apply (shared_keyword_strength ["Python"; "SQL"] ["python"; "docker"]
           (5 # 10) 40 5); [by repeat constructor |].
  exists "Python", "python".
  split; [apply list_elem_of_here |]. split; [apply list_elem_of_here |].
  reflexivity.
Defined.

(** Either the report lists missing keywords, or it carries exactly one
    of the two remarks made when none is missing: the coverage strength
    from a score of 70 up, the review note below 70.  Neither remark
    ever accompanies a list of missing keywords. *)
Theorem missing_keywords_or_remark
    (resume_keywords jd_keywords : list string) (s o : Q) (n : Z) :
  let feedback := generate_feedback resume_keywords jd_keywords s o n in
  (feedback !! "missing_keywords_suggestions" = None
   ↔ msg_coverage ∈ item "strengths" feedback
     ∨ msg_review_jd ∈ item "areas_for_improvement" feedback)
  ∧ ¬ (msg_coverage ∈ item "strengths" feedback
       ∧ msg_review_jd ∈ item "areas_for_improvement" feedback).
Proof.
  intros feedback. subst feedback.
  rewrite feedback_strengths, feedback_improvements.
  rewrite coverage_elem_iff, review_elem_iff.
  rewrite generate_feedback_categories, consolidate_lookup_suggestions.
  unfold suggestions_for.
  destruct (missing_keywords_of resume_keywords jd_keywords) as [| m ms];
    simpl is_nil; cbv iota.
  - split; [| intros [[_ ?] [_ ?]]; lra].
    split; [intros _ | done]. case_Qle 70 o; tauto.
  - split; [| intros [[? _] _]; done].
    split; [done | intros [[? _] | [? _]]; done].
Qed.

End ReportFacts.

(** ** Characters kept and removed *)
Section CharacterFacts.

Import TextProcessor.

(** On ASCII text (where [lower] is all of [str.lower]),
    [lowercase_text] leaves no capital letter and keeps the length; it
    returns its argument unchanged exactly when the argument has no
    capital letter. *)
Theorem lowercase_text_no_capitals (s : string) :
  all_chars is_ascii s = true →
  all_chars not_upper (lowercase_text (PyStr s)) = true
  ∧ String.length (lowercase_text (PyStr s)) = String.length s
  ∧ (lowercase_text (PyStr s) = s ↔ all_chars not_upper s = true).
Proof.
  intros _.
  simpl. split; [apply lower_not_upper |]. split; [apply lower_length |].
  symmetry. apply lower_fixed.
Qed.

Lemma lowercase_text_no_capitals_witness :
  all_chars not_upper (lowercase_text (PyStr "Senior Python Developer"))
  = true
  ∧ String.length (lowercase_text (PyStr "Senior Python Developer"))
    = String.length "Senior Python Developer"
  ∧ (lowercase_text (PyStr "Senior Python Developer")
     = "Senior Python Developer"
     ↔ all_chars not_upper "Senior Python Developer" = true).
Proof. apply lowercase_text_no_capitals. reflexivity. Defined.

(** [remove_punctuation] leaves no character of [string.punctuation] and
    never lengthens the text; it returns its argument unchanged exactly
    when the argument has no punctuation. *)
Theorem remove_punctuation_no_punctuation (s : string) :
  all_chars not_punctuation (remove_punctuation (PyStr s)) = true
  ∧ (String.length (remove_punctuation (PyStr s)) ≤ String.length s)%nat
  ∧ (remove_punctuation (PyStr s) = s ↔ all_chars not_punctuation s = true).
Proof.
  simpl. split; [apply delete_chars_none |].
  split; [apply delete_chars_length |].
  symmetry. apply delete_chars_fixed.
Qed.

End CharacterFacts.

(** ** Whitespace of a normalized text *)
Section WhitespaceFacts.

Import TextProcessor.

(** Whatever the tokenizer, the stop-word list and the lemmatizer give,
    and whatever the argument, the text [preprocess_text] returns has no
    whitespace at either end and is its own words joined by single
    blanks. *)
Theorem preprocess_text_whitespace
    (word_tokenize : string → list string) (stop_words : gset string)
    (nlp : option (string → list string)) (text : pyobj) :
  let processed := preprocess_text word_tokenize stop_words nlp text in
  strip processed = processed ∧ join " " (split processed) = processed.
Proof.
  intros processed. subst processed. destruct text as [s | |];
    [| by split..].
  unfold preprocess_text. split.
  - apply collapse_whitespace_stripped.
  - apply collapse_whitespace_idempotent.
Qed.

Lemma simplified_preprocess_text_normal_form_aux (text : pyobj) :
  all_chars not_upper (SimplifiedApp.preprocess_text text) = true
  ∧ all_chars not_punctuation (SimplifiedApp.preprocess_text text) = true
  ∧ join " " (split (SimplifiedApp.preprocess_text text))
    = SimplifiedApp.preprocess_text text.
Proof.
  destruct text as [s | |]; [| by repeat split..].
  unfold SimplifiedApp.preprocess_text. cbv zeta.
  change (join " " (split ?y)) with (collapse_whitespace y).
  split; [| split].
  - apply all_chars_collapse; [reflexivity |].
    apply delete_chars_keeps, lower_not_upper.
  - apply all_chars_collapse; [reflexivity |]. apply delete_chars_none.
  - apply collapse_whitespace_idempotent.
Qed.

(** The text the stand-alone [preprocess_text] returns has no capital
    letter, no punctuation, no whitespace at either end, and is its own
    words joined by single blanks. *)
Theorem simplified_preprocess_text_normal_form (text : pyobj) :
  let processed := SimplifiedApp.preprocess_text text in
  all_chars not_upper processed = true
  ∧ all_chars not_punctuation processed = true
  ∧ strip processed = processed
  ∧ join " " (split processed) = processed.
Proof.
  intros processed. subst processed.
  destruct (simplified_preprocess_text_normal_form_aux text)
    as (Hupper & Hpunct & Hjoin).
  split; [exact Hupper |]. split; [exact Hpunct |].
  split; [| exact Hjoin].
  rewrite <- Hjoin. apply collapse_whitespace_stripped.
Qed.

(** The stand-alone [preprocess_text] is idempotent: preprocessing a
    preprocessed text returns it unchanged. *)
Theorem simplified_preprocess_text_idempotent (text : pyobj) :
  SimplifiedApp.preprocess_text (PyStr (SimplifiedApp.preprocess_text text))
  = SimplifiedApp.preprocess_text text.
Proof.
  destruct (simplified_preprocess_text_normal_form_aux text)
    as (Hupper & Hpunct & Hjoin).
  unfold SimplifiedApp.preprocess_text at 1. cbv zeta.
  rewrite (proj1 (lower_fixed _) Hupper).
  rewrite (proj1 (delete_chars_fixed _ _) Hpunct).
  exact Hjoin.
Qed.

End WhitespaceFacts.

(** ** simplified_app.py: the overall score *)
Section SimplifiedScoreFacts.

(** The stand-alone [calculate_overall_score] raises
    [ZeroDivisionError] exactly when the two weights sum to zero; in
    every other case it returns a number. *)
Theorem simplified_overall_score_zero_division
    (keyword_match similarity kw sw : Q) :
  SimplifiedApp.calculate_overall_score keyword_match similarity kw sw
  = SimplifiedApp.ZeroDivisionError
  ↔ kw + sw == 0.
Proof.
  unfold SimplifiedApp.calculate_overall_score. cbv zeta.
  destruct (Qeq_bool (kw + sw) 1) eqn:Hone; simpl.
  - apply Qeq_bool_iff in Hone. split; [discriminate | lra].
  - destruct (Qeq_bool (kw + sw) 0) eqn:Hzero.
    + apply Qeq_bool_iff in Hzero. by split.
    + apply Qeq_bool_neq in Hzero. split; [discriminate | done].
Qed.

(** On weights in [0, 1] with a positive sum and a similarity in [0, 1],
    the stand-alone scorer, given the keyword match score of two lists,
    returns the score the backend returns for these lists. *)
Theorem simplified_overall_score_agrees
    (resume_keywords jd_keywords : list string) (similarity kw sw : Q) :
  0 <= kw <= 1 → 0 <= sw <= 1 → 0 < kw + sw → 0 <= similarity <= 1 →
  ∃ v v',
    Scorer.calculate_overall_score resume_keywords jd_keywords similarity
      kw sw = Scorer.Returns v
    ∧ SimplifiedApp.calculate_overall_score
        (Scorer.calculate_keyword_match_score resume_keywords jd_keywords)
        similarity kw sw = SimplifiedApp.Returns v'
    ∧ v == v'.
Proof.
  intros Hkw Hsw Hsum Hsim.
  destruct (overall_score_normalized resume_keywords jd_keywords similarity
              kw sw) as (v & Hv & Heq); [assumption.. |].
  exists v. rewrite Hv.
  assert (py_max 0 (py_min 1 similarity) == similarity) as Hclamp.
  { rewrite clamp_is_clamp01. unfold Scorer.clamp01.
    case_Qlt similarity 0; [lra |]. case_Qlt 1 similarity; lra. }
  unfold SimplifiedApp.calculate_overall_score. cbv zeta.
  destruct (Qeq_bool (kw + sw) 1) eqn:Hone; simpl.
  - apply Qeq_bool_iff in Hone. eexists. split; [reflexivity |].
    split; [reflexivity |]. rewrite Heq. unfold Scorer.combine.
    rewrite Hclamp, Hone. field.
  - destruct (Qeq_bool (kw + sw) 0) eqn:Hzero.
    + apply Qeq_bool_iff in Hzero. lra.
    + eexists. split; [reflexivity |]. split; [reflexivity |].
      rewrite Heq. unfold Scorer.combine. rewrite Hclamp. reflexivity.
Qed.

Lemma simplified_overall_score_agrees_witness :
  ∃ v v',
    Scorer.calculate_overall_score ["python"; "django"; "api"]
      ["python"; "flask"; "api"] (8 # 10) (5 # 10) (8 # 10)
    = Scorer.Returns v
    ∧ SimplifiedApp.calculate_overall_score
        (Scorer.calculate_keyword_match_score ["python"; "django"; "api"]
           ["python"; "flask"; "api"])
        (8 # 10) (5 # 10) (8 # 10) = SimplifiedApp.Returns v'
    ∧ v == v'.
Proof.
  apply simplified_overall_score_agrees; vm_compute; try split;
    discriminate.
Defined.

End SimplifiedScoreFacts.

(** ** backend/keyword_extractor.py: the lists returned *)
Section ExtractionFacts.

Import KeywordExtractor.

Lemma all_strings_length (corpus : list pyobj) (docs : list string) :
  all_strings corpus = Some docs → length docs = length corpus.
Proof.
  intros Hdocs%mapM_Some. symmetry. by eapply Forall2_length.
Qed.

Lemma empty_result_length (corpus : list pyobj) :
  length (empty_result corpus) = length corpus.
Proof. unfold empty_result. apply length_fmap. Qed.

Lemma argsort_elem (row : list Q) (idx : nat) :
  idx ∈ argsort row ↔ (idx < length row)%nat.
Proof.
  unfold argsort. rewrite merge_sort_Permutation, elem_of_seq. lia.
Qed.

Lemma doc_keyword_columns_elem (row : list Q) (top_n : Z) (idx : nat) :
  idx ∈ doc_keyword_columns row top_n →
  (idx < length row)%nat ∧ 0 < score_at row idx.
Proof.
  intros Hin. split.
  - apply argsort_elem, elem_of_reverse.
    eapply elem_of_sublist; [exact Hin | apply doc_keyword_columns_sublist].
  - pose proof (doc_keyword_columns_positive row top_n) as Hpos.
    rewrite Forall_forall in Hpos. by apply Hpos.
Qed.

(** With a top_n that covers the row, every column of positive score is
    kept. *)
Lemma doc_keyword_columns_all (row : list Q) (top_n : Z) (idx : nat) :
  (Z.of_nat (length row) ≤ top_n)%Z →
  (idx < length row)%nat → 0 < score_at row idx →
  idx ∈ doc_keyword_columns row top_n.
Proof.
  intros Hn Hidx Hpos. unfold doc_keyword_columns, py_slice_to.
  destruct (Z.ltb_spec top_n 0) as [Hneg | _]; [lia |].
  rewrite take_ge
    by (rewrite length_reverse; unfold argsort;
        rewrite merge_sort_Permutation, length_seq; lia).
  apply list_elem_of_filter. split.
  - by apply Is_true_true, Qlt_bool_iff.
  - by apply elem_of_reverse, argsort_elem.
Qed.

Lemma doc_keywords_defined (names : list string) (row : list Q) (top_n : Z) :
  length row = length names → is_Some (doc_keywords names row top_n).
Proof.
  intros Hlen. unfold doc_keywords. apply mapM_is_Some, Forall_forall.
  intros idx [Hidx _]%doc_keyword_columns_elem. simpl.
  apply lookup_lt_is_Some. lia.
Qed.

Lemma doc_keywords_elem (names : list string) (row : list Q) (top_n : Z)
    (keywords : list string) (term : string) :
  doc_keywords names row top_n = Some keywords →
  term ∈ keywords
  ↔ ∃ idx, idx ∈ doc_keyword_columns row top_n ∧ names !! idx = Some term.
Proof.
  intros Hkw%mapM_Some. split.
  - intros [k Hk]%list_elem_of_lookup_1.
    destruct (Forall2_lookup_r _ _ _ _ _ Hkw Hk) as (idx & Hidx & Hname).
    exists idx. split; [by eapply list_elem_of_lookup_2 | exact Hname].
  - intros (idx & [k Hk]%list_elem_of_lookup_1 & Hname).
    destruct (Forall2_lookup_l _ _ _ _ _ Hkw Hk) as (term' & Hterm & Hname').
    simpl in Hname'. rewrite Hname in Hname'. injection Hname' as <-.
    by eapply list_elem_of_lookup_2.
Qed.

(** The result is aligned with the corpus: one keyword list per
    document, whether the extraction succeeds or falls back to empty
    lists, as long as the vectorizer gives one row per document. *)
Theorem extract_keywords_one_list_per_document
    (fit_transform : list string → option tfidf) (corpus : list pyobj)
    (top_n : Z) :
  (∀ docs fit,
     fit_transform docs = Some fit →
     length (tfidf_matrix fit) = length docs) →
  length (extract_keywords_tfidf fit_transform corpus top_n)
  = length corpus.
Proof.
  intros Hrows. unfold extract_keywords_tfidf.
  destruct (all_strings corpus) as [docs |] eqn:Hdocs;
    [| apply empty_result_length].
  destruct (is_nil docs); [apply empty_result_length |].
  destruct (fit_transform docs) as [fit |] eqn:Hfit; simpl;
    [| apply empty_result_length].
  destruct (mapM _ (tfidf_matrix fit)) as [corpus_keywords |] eqn:Hmap;
    [| apply empty_result_length].
  apply mapM_Some, Forall2_length in Hmap.
  rewrite <- Hmap, (Hrows docs fit Hfit). by apply all_strings_length.
Qed.

Lemma extract_keywords_one_list_per_document_witness :
  length
    (extract_keywords_tfidf three_term_vectorizer
       [PyStr three_term_doc] 2)
  = length [PyStr three_term_doc].
Proof.
  apply extract_keywords_one_list_per_document.
  intros docs fit. unfold three_term_vectorizer.
  destruct (decide (docs = [three_term_doc])) as [-> |]; [| discriminate].
  by intros [= <-].
Defined.

(** A keyword is never invented: every keyword returned is a term of
    the vocabulary the vectorizer fitted on the corpus. *)
Theorem extracted_keywords_from_vocabulary
    (fit_transform : list string → option tfidf) (corpus : list pyobj)
    (top_n : Z) (i : nat) (keywords : list string) (term : string) :
  extract_keywords_tfidf fit_transform corpus top_n !! i = Some keywords →
  term ∈ keywords →
  ∃ docs fit,
    all_strings corpus = Some docs ∧ fit_transform docs = Some fit
    ∧ term ∈ feature_names fit.
Proof.
  unfold extract_keywords_tfidf. intros Hi Hterm.
  assert (empty_result corpus !! i = Some keywords → False) as Hempty.
  { intros ->%empty_result_lookup. by apply not_elem_of_nil in Hterm. }
  destruct (all_strings corpus) as [docs |] eqn:Hdocs; [| done].
  destruct (is_nil docs); [done |].
  destruct (fit_transform docs) as [fit |] eqn:Hfit; simpl in Hi; [| done].
  destruct (mapM _ (tfidf_matrix fit)) as [corpus_keywords |] eqn:Hmap;
    [| done].
  apply mapM_Some in Hmap.
  destruct (Forall2_lookup_r _ _ _ _ _ Hmap Hi) as (row & _ & Hkw).
  apply (doc_keywords_elem _ _ _ _ term Hkw) in Hterm
    as (idx & _ & Hname).
  exists docs, fit. repeat split; [done |].
  by eapply list_elem_of_lookup_2.
Qed.

Lemma extracted_keywords_from_vocabulary_witness :
  ∃ docs fit,
    all_strings [PyStr three_term_doc] = Some docs
    ∧ three_term_vectorizer docs = Some fit
    ∧ "django" ∈ feature_names fit.
Proof.
  apply (extracted_keywords_from_vocabulary three_term_vectorizer
           [PyStr three_term_doc] 2 0 ["django"; "api"] "django").
  - vm_compute. reflexivity.
  - apply list_elem_of_here.
Defined.

(** Nothing is dropped when top_n covers the vocabulary: for a fitted
    vectorizer with distinct terms and one score per term in every row,
    the keywords of a document are exactly the terms with a strictly
    positive score in its row. *)
Theorem extracted_keywords_complete
    (fit_transform : list string → option tfidf) (docs : list string)
    (top_n : Z) (fit : tfidf) (i : nat) (row : list Q) :
  docs ≠ [] → fit_transform docs = Some fit →
  NoDup (feature_names fit) →
  Forall (λ row, length row = length (feature_names fit))
    (tfidf_matrix fit) →
  (Z.of_nat (length (feature_names fit)) ≤ top_n)%Z →
  tfidf_matrix fit !! i = Some row →
  ∃ keywords,
    extract_keywords_tfidf fit_transform (PyStr <$> docs) top_n !! i
    = Some keywords
    ∧ ∀ term,
        term ∈ keywords
        ↔ term ∈ feature_names fit
          ∧ 0 < term_score (feature_names fit) row term.
Proof.
  intros Hdocs Hfit Hnames Hrows Hn Hrow.
  unfold extract_keywords_tfidf. rewrite all_strings_of_strings.
  destruct docs as [| doc docs]; [done |]. simpl is_nil. cbv iota.
  rewrite Hfit. simpl.
  destruct (mapM_is_Some_2
              (λ row, doc_keywords (feature_names fit) row top_n)
              (tfidf_matrix fit)) as [corpus_keywords Hmap].
  { eapply Forall_impl; [exact Hrows |]. intros r Hr.
    by apply doc_keywords_defined. }
  rewrite Hmap. apply mapM_Some in Hmap.
  destruct (Forall2_lookup_l _ _ _ _ _ Hmap Hrow) as (keywords & Hi & Hkw).
  exists keywords. split; [exact Hi |].
  assert (length row = length (feature_names fit)) as Hlen.
  { rewrite Forall_forall in Hrows. apply Hrows.
    by eapply list_elem_of_lookup_2. }
  intros term. rewrite (doc_keywords_elem _ _ _ _ term Hkw). split.
  - intros (idx & [_ Hpos]%doc_keyword_columns_elem & Hname).
    split; [by eapply list_elem_of_lookup_2 |].
    by rewrite (term_score_lookup _ row idx term Hnames Hname).
  - intros [[idx Hname]%list_elem_of_lookup_1 Hpos].
    rewrite (term_score_lookup _ row idx term Hnames Hname) in Hpos.
    exists idx. split; [| exact Hname].
    apply doc_keyword_columns_all; [lia | | exact Hpos].
    rewrite Hlen. apply lookup_lt_is_Some. by eexists.
Qed.

Lemma extracted_keywords_complete_witness :
  ∃ keywords,
    extract_keywords_tfidf three_term_vectorizer
      (PyStr <$> [three_term_doc]) 3 !! 0%nat = Some keywords
    ∧ ∀ term,
        term ∈ keywords
        ↔ term ∈ feature_names three_term_fit
          ∧ 0 < term_score (feature_names three_term_fit)
                  [3 # 7; 6 # 7; 2 # 7] term.
Proof.
  apply (extracted_keywords_complete three_term_vectorizer [three_term_doc]
           3 three_term_fit 0 [3 # 7; 6 # 7; 2 # 7]).
  - discriminate.
  - reflexivity.
  - apply three_term_vocabulary_distinct.
  - by repeat constructor.
  - simpl. lia.
  - reflexivity.
Defined.

End ExtractionFacts.

(** ** backend/semantic_analyzer.py: the cosine *)
Section CosineFacts.

Import SemanticAnalyzer.
Local Open Scope R_scope.

Lemma dot_cons (x y : R) (a b : vector) :
  dot (x :: a) (y :: b) = x * y + dot a b.
Proof. reflexivity. Qed.

Lemma dot_comm (a b : vector) : dot a b = dot b a.
Proof.
  revert b. induction a as [| x a IH]; intros [| y b]; try reflexivity.
  rewrite !dot_cons, IH. ring.
Qed.

Lemma cosine_similarity_comm (a b : vector) :
  cosine_similarity a b = cosine_similarity b a.
Proof.
  unfold cosine_similarity.
  rewrite (orb_comm (is_nil a)), (Nat.eqb_sym (length a)), dot_comm.
  reflexivity.
Qed.

Lemma encode_per_text (embed : string → vector) (text1 text2 : string) :
  encode_and_compare (per_text_encoder embed) text1 text2
  = cosine_similarity (embed text1) (embed text2).
Proof. reflexivity. Qed.

(** With an encoder that embeds each text on its own, the similarity
    does not depend on the order of the two arguments. *)
Theorem semantic_similarity_symmetric (embed : string → vector)
    (text1 text2 : pyobj) :
  calculate_semantic_similarity (Some (per_text_encoder embed)) text1 text2
  = calculate_semantic_similarity (Some (per_text_encoder embed)) text2
      text1.
Proof.
  unfold calculate_semantic_similarity.
  destruct text1 as [s1 | |], text2 as [s2 | |]; try reflexivity.
  rewrite !encode_per_text, (cosine_similarity_comm (embed s1)).
  rewrite (orb_comm (is_empty (strip s1))),
    (andb_comm (is_empty (strip s1))).
  reflexivity.
Qed.

End CosineFacts.

(** ** backend/main.py: the analysis endpoint *)
Section EndpointFacts.

Import Main.

Variable word_tokenize : string → list string.
Variable stop_words : gset string.
Variable nlp : option (string → list string).
Variable fit_transform : list string → option KeywordExtractor.tfidf.
Variable sentence_model_loaded : bool.
Variable calculate_semantic_similarity : string → string → Q.

Lemma default_weights_score (resume_keywords jd_keywords : list string)
    (s : Q) :
  ∃ v,
    Scorer.calculate_overall_score resume_keywords jd_keywords s
      Scorer.default_keyword_weight Scorer.default_semantic_weight
    = Scorer.Returns v
    ∧ v == (Scorer.calculate_keyword_match_score resume_keywords jd_keywords
              * (4 # 10)
            + Scorer.clamp01 s * (6 # 10)) * 100
    ∧ 0 <= v <= 100.
Proof.
  destruct (overall_score_normalized resume_keywords jd_keywords s
              Scorer.default_keyword_weight Scorer.default_semantic_weight)
    as (v & Hv & Heq); [vm_compute; split; discriminate.. | reflexivity |].
  exists v. split; [exact Hv |].
  pose proof (clamp_is_clamp01 s) as Hclamp.
  assert (v == (Scorer.calculate_keyword_match_score resume_keywords
                  jd_keywords * (4 # 10)
                + Scorer.clamp01 s * (6 # 10)) * 100) as Hformula.
  { rewrite Heq. unfold Scorer.combine. rewrite Hclamp.
    unfold Scorer.default_keyword_weight, Scorer.default_semantic_weight.
    field. }
  split; [exact Hformula |]. rewrite Hformula.
  pose proof (keyword_match_score_range resume_keywords jd_keywords).
  pose proof (clamp01_range s). split; nra.
Qed.

Lemma extract_keywords_length
    (corpus : list pyobj) (top_n : Z) (i : nat) (keywords : list string) :
  (0 ≤ top_n)%Z →
  KeywordExtractor.extract_keywords_tfidf fit_transform corpus top_n !! i
  = Some keywords →
  (Z.of_nat (length keywords) ≤ top_n)%Z.
Proof.
  intros Hn. unfold KeywordExtractor.extract_keywords_tfidf.
  assert (KeywordExtractor.empty_result corpus !! i = Some keywords →
          (Z.of_nat (length keywords) ≤ top_n)%Z) as Hempty.
  { intros ->%empty_result_lookup. simpl. lia. }
  destruct (KeywordExtractor.all_strings corpus) as [docs |]; [| done].
  destruct (is_nil docs); [done |].
  destruct (fit_transform docs) as [fit |]; simpl; [| done].
  destruct (mapM _ (KeywordExtractor.tfidf_matrix fit))
    as [corpus_keywords |] eqn:Hmap; [| done].
  intros Hi. apply mapM_Some in Hmap.
  destruct (Forall2_lookup_r _ _ _ _ _ Hmap Hi) as (row & _ & Hkw).
  unfold KeywordExtractor.doc_keywords in Hkw.
  apply mapM_Some, Forall2_length in Hkw. rewrite <- Hkw.
  by apply doc_keyword_columns_length.
Qed.

Lemma keywords_of_length (processed_text : string) :
  (length (keywords_of fit_transform processed_text) ≤ 10)%nat.
Proof.
  unfold keywords_of, first_or_empty.
  destruct (KeywordExtractor.extract_keywords_tfidf _ _ _)
    as [| first rest] eqn:Hlists; [simpl; lia |].
  assert (Z.of_nat (length first) ≤ KeywordExtractor.default_top_n)%Z
    as Hlen.
  { eapply (extract_keywords_length _ _ 0%nat first);
      [unfold KeywordExtractor.default_top_n; lia |].
    by rewrite Hlists. }
  unfold KeywordExtractor.default_top_n in Hlen. lia.
Qed.

(** The endpoint answers 503 exactly when the sentence model is not
    loaded, 413 exactly when it is loaded and a text is longer than
    200000 characters, and a response otherwise: with the default
    weights the scorer never raises, so the modelled pipeline never ends
    in status 500. *)
Theorem analyze_resume_status (resume_text job_description_text : string) :
  match
    analyze_resume word_tokenize stop_words nlp fit_transform
      sentence_model_loaded calculate_semantic_similarity resume_text
      job_description_text
  with
  | HTTPException status_code =>
      status_code = 503%Z ∧ sentence_model_loaded = false
      ∨ status_code = 413%Z ∧ sentence_model_loaded = true
        ∧ (MAX_INPUT_LENGTH < len resume_text
           ∨ MAX_INPUT_LENGTH < len job_description_text)%Z
  | Ok _ =>
      sentence_model_loaded = true
      ∧ (len resume_text ≤ MAX_INPUT_LENGTH)%Z
      ∧ (len job_description_text ≤ MAX_INPUT_LENGTH)%Z
  end.
Proof.
  unfold analyze_resume.
  destruct sentence_model_loaded; cbn [negb]; [| by left].
  destruct (Z.ltb_spec MAX_INPUT_LENGTH (len resume_text)) as [Hr | Hr];
    cbn [orb]; [right; tauto |].
  destruct (Z.ltb_spec MAX_INPUT_LENGTH (len job_description_text))
    as [Hj | Hj]; [right; tauto |].
  cbv zeta.
  match goal with
  | |- context [Scorer.calculate_overall_score ?r ?j ?s _ _] =>
      destruct (default_weights_score r j s) as (v & -> & _)
  end.
  done.
Qed.

(** In every response the overall score is between 0 and 100 (the
    default weights 0.4 and 0.6 sum to 1.0 exactly and are not
    normalized, so rounding cannot lift the score over 100); the keyword
    match score is between 0 and 1 and is that of the two keyword lists
    of the response; each keyword list has at most 10 terms; and the
    feedback has its summary. *)
Theorem analyze_resume_response (resume_text job_description_text : string) :
  match
    analyze_resume word_tokenize stop_words nlp fit_transform
      sentence_model_loaded calculate_semantic_similarity resume_text
      job_description_text
  with
  | HTTPException _ => True
  | Ok r =>
      0 <= overall_score r <= 100
      ∧ 0 <= keyword_match_score r <= 1
      ∧ keyword_match_score r
        = Scorer.calculate_keyword_match_score (resume_keywords r)
            (jd_keywords r)
      ∧ (length (resume_keywords r) ≤ 10)%nat
      ∧ (length (jd_keywords r) ≤ 10)%nat
      ∧ ∃ summary, feedback r !! "overall_summary" = Some [summary]
  end.
Proof.
  unfold analyze_resume.
  destruct (negb sentence_model_loaded); [done |].
  destruct (_ || _); [done |]. cbv zeta.
  match goal with
  | |- context [Scorer.calculate_overall_score ?r ?j ?s _ _] =>
      destruct (default_weights_score r j s) as (v & -> & Hformula & Hrange)
  end.
  cbn [overall_score semantic_similarity_score keyword_match_score feedback
         resume_keywords jd_keywords].
  split; [exact Hrange |].
  split; [apply keyword_match_score_range |]. split; [reflexivity |].
  split; [apply keywords_of_length |]. split; [apply keywords_of_length |].
  eexists. apply feedback_summary.
Qed.

End EndpointFacts.

(** ** simplified_app.py: the feedback *)
Section SimplifiedFeedbackFacts.

Import FeedbackGenerator.

(** The dictionary the stand-alone [generate_feedback] returns, category
    by category. *)
Lemma simplified_feedback_categories
    (resume_keywords jd_keywords : list string) (s o : Q) :
  let missing :=
    SimplifiedFeedback.missing_keywords_of resume_keywords jd_keywords in
  let common :=
    SimplifiedFeedback.common_keywords_of resume_keywords jd_keywords in
  SimplifiedFeedback.generate_feedback resume_keywords jd_keywords s o
  = categories
      [if Qle_bool 75 o then SimplifiedFeedback.msg_excellent o
       else if Qle_bool 50 o then SimplifiedFeedback.msg_good_potential o
       else SimplifiedFeedback.msg_needs_improvement o]
      (if is_nil missing then []
       else [SimplifiedFeedback.msg_missing (py_slice_to 5 missing)])
      ((if is_nil common then [] else [SimplifiedFeedback.msg_common common])
       ++ (if Qle_bool (7 # 10) s
           then [SimplifiedFeedback.msg_strong_alignment] else []))
      ((if Qlt_bool s (5 # 10) then [SimplifiedFeedback.msg_rephrase] else [])
       ++ (if (5 <? Z.of_nat (length missing))%Z
           then [SimplifiedFeedback.msg_several_missing] else [])).
Proof.
  intros missing common. unfold SimplifiedFeedback.generate_feedback.
  fold missing common. change initial_feedback with (categories [] [] [] []).
  destruct (is_nil missing); cbn [negb]; rewrite ?append_suggestions;
    destruct (Qle_bool 75 o); destruct (Qle_bool 50 o);
    rewrite append_summary;
    destruct (is_nil common); cbn [negb]; rewrite ?append_strengths;
    destruct (Qle_bool (7 # 10) s); rewrite ?append_strengths;
    destruct (Qlt_bool s (5 # 10)); rewrite ?append_improvements;
    destruct (5 <? Z.of_nat (length missing))%Z;
    rewrite ?append_improvements; reflexivity.
Qed.

(** Unlike the backend, the stand-alone [generate_feedback] never
    removes a category: all four keys are in every report, empty or not,
    and the summary holds one message. *)
Theorem simplified_feedback_keeps_every_category
    (resume_keywords jd_keywords : list string) (s o : Q) :
  let feedback :=
    SimplifiedFeedback.generate_feedback resume_keywords jd_keywords s o in
  (∀ key,
     is_Some (feedback !! key)
     ↔ key ∈ ["overall_summary"; "missing_keywords_suggestions";
              "strengths"; "areas_for_improvement"])
  ∧ (∃ summary, feedback !! "overall_summary" = Some [summary])
  ∧ (s < 7 # 10 →
     (∀ k, ¬ (k ∈ resume_keywords ∧ k ∈ jd_keywords)) →
     feedback !! "strengths" = Some []).
Proof.
  intros feedback. subst feedback. rewrite simplified_feedback_categories.
  cbv zeta. split; [| split].
  - intros key. unfold categories. unfold is_Some.
    setoid_rewrite lookup_insert_Some. setoid_rewrite lookup_insert_Some.
    setoid_rewrite lookup_insert_Some. setoid_rewrite lookup_insert_Some.
    setoid_rewrite lookup_empty. rewrite !elem_of_cons, elem_of_nil.
    split.
    + intros (msgs & [[<- _] | [_ [[<- _] | [_ [[<- _] | [_ [[<- _] | [_ ?]]]]]]]]);
        try tauto. discriminate.
    + intros [-> | [-> | [-> | [-> | []]]]]; eexists.
      * left. done.
      * right. split; [done |]. left. done.
      * right. split; [done |]. right. split; [done |]. left. done.
      * right. split; [done |]. right. split; [done |]. right.
        split; [done |]. left. done.
  - eexists. reflexivity.
  - intros Hs Hnone.
    rewrite (proj2 (Qle_bool_false (7 # 10) s)) by exact Hs.
    assert (SimplifiedFeedback.common_keywords_of resume_keywords jd_keywords
            = []) as ->; [| reflexivity].
    unfold SimplifiedFeedback.common_keywords_of.
    apply elements_empty_iff, set_equiv. intros k.
    rewrite elem_of_intersection, !elem_of_list_to_set.
    split; [intros Hk; by apply Hnone in Hk |].
    intros Hk. by apply not_elem_of_empty in Hk.
Qed.

Lemma simplified_feedback_keeps_every_category_witness :
  SimplifiedFeedback.generate_feedback ["python"] ["java"] (6 # 10) 40
    !! "strengths" = Some [].
Proof.
  apply (simplified_feedback_keeps_every_category ["python"] ["java"]
           (6 # 10) 40).
  - reflexivity.
  - intros k [Hr Hj]. apply list_elem_of_singleton in Hr, Hj.
    subst. discriminate.
Defined.

(** The stand-alone report tells strong semantic alignment exactly from
    a similarity of 0.7 up, asks to rephrase exactly under 0.5, and says
    that several keywords are missing exactly when more than five
    keywords of the job description are not in the resume. *)
Theorem simplified_feedback_thresholds
    (resume_keywords jd_keywords : list string) (s o : Q) :
  let feedback :=
    SimplifiedFeedback.generate_feedback resume_keywords jd_keywords s o in
  let missing :=
    SimplifiedFeedback.missing_keywords_of resume_keywords jd_keywords in
  (SimplifiedFeedback.msg_strong_alignment ∈ item "strengths" feedback
   ↔ 7 # 10 <= s)
  ∧ (SimplifiedFeedback.msg_rephrase ∈ item "areas_for_improvement" feedback
     ↔ s < 5 # 10)
  ∧ (SimplifiedFeedback.msg_several_missing
     ∈ item "areas_for_improvement" feedback
     ↔ (5 < length missing)%nat).
Proof.
  intros feedback missing. subst feedback.
  rewrite simplified_feedback_categories. cbv zeta. fold missing.
  rewrite item_strengths, item_improvements.
  rewrite !elem_of_app.
  split; [| split].
  - destruct (is_nil _); case_Qle (7 # 10) s;
      rewrite ?list_elem_of_singleton, ?elem_of_nil;
      unfold SimplifiedFeedback.msg_common; cbv [String.append];
      split; try tauto; try lra;
      intros [? | ?]; try done; try discriminate; lra.
  - case_Qlt s (5 # 10); destruct (5 <? _)%Z;
      rewrite ?list_elem_of_singleton, ?elem_of_nil;
      split; try tauto; try lra;
      intros [? | ?]; try done; try discriminate; lra.
  - destruct (Qlt_bool s (5 # 10));
      destruct (Z.ltb_spec 5 (Z.of_nat (length missing)));
      rewrite ?list_elem_of_singleton, ?elem_of_nil;
      split; try tauto; try lia;
      intros [? | ?]; try done; try discriminate; lia.
Qed.

End SimplifiedFeedbackFacts.
